(** * Session lifecycle of the Raspberry Pi Bluetooth HCI HAL

    A shallow embedding of [bluetooth/BluetoothHci.cpp]: the state machine of
    [BluetoothHci] ([initialize], [close], [send]), its death recipient and the
    callbacks it hands to the H4 codec.  Every member function becomes a
    computation in a small monad that threads the object's fields, records the
    calls made to the outside world (log lines, mutex operations, binder and
    device calls) in a trace, and may abort the process. *)

From Stdlib Require Import ZArith List String Bool Lia.
Import ListNotations.
Local Open Scope string_scope.
Local Open Scope Z_scope.
Local Open Scope list_scope.

(** ** Data *)

(** [enum class HalState] of BluetoothHci.h. *)
Inductive HalState : Type := READY | INITIALIZING | ONE_CLIENT | CLOSING.

(** [hci::PacketType], the one-byte discriminator of an H4 frame. *)
Inductive PacketType : Type := COMMAND | ACL_DATA | SCO_DATA | EVENT | ISO_DATA.

(** The AIDL [Status] values handed to [initializationComplete]. *)
Inductive Status : Type := SUCCESS | ALREADY_INITIALIZED | UNABLE_TO_OPEN_INTERFACE.

(** The binder codes the file names. *)
Inductive binder_status_t : Type := STATUS_BAD_VALUE | STATUS_FAILED_TRANSACTION.
Inductive binder_exception_t : Type := EX_ILLEGAL_ARGUMENT | EX_ILLEGAL_STATE.

(** [ndk::ScopedAStatus]. *)
Inductive ScopedAStatus : Type :=
| ok
| fromServiceSpecificError (e : binder_status_t)
| fromExceptionCode (e : binder_exception_t).

(** A [std::shared_ptr<IBluetoothHciCallbacks>] is modelled by the identity of
    the object it points to; [nullptr] is [None]. *)
Definition CallbackRef : Type := nat.
Definition Callbacks : Type := option CallbackRef.

Definition Callbacks_eqb (a b : Callbacks) : bool :=
  match a, b with
  | None, None => true
  | Some x, Some y => Nat.eqb x y
  | _, _ => false
  end.

Definition HalState_eqb (a b : HalState) : bool :=
  match a, b with
  | READY, READY | INITIALIZING, INITIALIZING
  | ONE_CLIENT, ONE_CLIENT | CLOSING, CLOSING => true
  | _, _ => false
  end.

Definition Packet : Type := list Byte.byte.
Definition Frame : Type := (PacketType * Packet)%type.

Inductive Mutex : Type := mStateMutex | mHasDiedMutex.
Inductive LogLevel : Type := INFO | ERROR.

(** What the object does to the outside world, in program order. *)
Inductive Event : Type :=
| ALOG (lvl : LogLevel) (msg : string)
| ALOG_state (lvl : LogLevel) (fmt : string) (st : HalState)
| Lock (m : Mutex)
| Unlock (m : Mutex)
| SetHasDied
| OpenHci (fd : Z)                      (* management_->openHci() returned fd *)
| CloseHci (fd : Z)                     (* management_->closeHci() on bt_fd_ = fd *)
| DtorClose (fd : Z)                    (* ~NetBluetoothMgmt: ::close(bt_fd_) *)
| AIBinder_DeathRecipient_new
| AIBinder_linkToDeath (cb : CallbackRef)
| AIBinder_unlinkToDeath (cb : CallbackRef)
| WatchFd (fd : Z)
| StopWatching
| initializationComplete (cb : CallbackRef) (st : Status)
| aclDataReceived (cb : CallbackRef) (p : Packet)
| scoDataReceived (cb : CallbackRef) (p : Packet)
| hciEventReceived (cb : CallbackRef) (p : Packet)
| isoDataReceived (cb : CallbackRef) (p : Packet)
| H4Send (fd : Z) (ty : PacketType) (p : Packet).

Definition Trace : Type := list Event.

(** [class NetBluetoothMgmt]: the descriptor of the user channel. *)
Record NetBluetoothMgmt : Type := { bt_fd_ : Z }.

(** The codec object; its callbacks are the lambdas of [initialize], below. *)
Record H4Protocol : Type := { h4_fd : Z }.

Record BluetoothDeathRecipient : Type := {
  dr_mCb : Callbacks;
  has_died_ : bool
}.

Record BluetoothHci : Type := {
  mState : HalState;
  mCb : Callbacks;
  mFd : Z;
  management_ : option NetBluetoothMgmt;
  mH4 : option H4Protocol;
  mFdWatcher : option Z;                (* the descriptor being watched *)
  mDeathRecipient : BluetoothDeathRecipient
}.

Definition set_mState (v : HalState) (s : BluetoothHci) : BluetoothHci :=
  {| mState := v; mCb := mCb s; mFd := mFd s; management_ := management_ s;
     mH4 := mH4 s; mFdWatcher := mFdWatcher s;
     mDeathRecipient := mDeathRecipient s |}.

Definition set_mCb (v : Callbacks) (s : BluetoothHci) : BluetoothHci :=
  {| mState := mState s; mCb := v; mFd := mFd s; management_ := management_ s;
     mH4 := mH4 s; mFdWatcher := mFdWatcher s;
     mDeathRecipient := mDeathRecipient s |}.

Definition set_mFd (v : Z) (s : BluetoothHci) : BluetoothHci :=
  {| mState := mState s; mCb := mCb s; mFd := v; management_ := management_ s;
     mH4 := mH4 s; mFdWatcher := mFdWatcher s;
     mDeathRecipient := mDeathRecipient s |}.

Definition set_management_ (v : option NetBluetoothMgmt) (s : BluetoothHci)
  : BluetoothHci :=
  {| mState := mState s; mCb := mCb s; mFd := mFd s; management_ := v;
     mH4 := mH4 s; mFdWatcher := mFdWatcher s;
     mDeathRecipient := mDeathRecipient s |}.

Definition set_mH4 (v : option H4Protocol) (s : BluetoothHci) : BluetoothHci :=
  {| mState := mState s; mCb := mCb s; mFd := mFd s; management_ := management_ s;
     mH4 := v; mFdWatcher := mFdWatcher s;
     mDeathRecipient := mDeathRecipient s |}.

Definition set_mFdWatcher (v : option Z) (s : BluetoothHci) : BluetoothHci :=
  {| mState := mState s; mCb := mCb s; mFd := mFd s; management_ := management_ s;
     mH4 := mH4 s; mFdWatcher := v;
     mDeathRecipient := mDeathRecipient s |}.

Definition set_mDeathRecipient (v : BluetoothDeathRecipient) (s : BluetoothHci)
  : BluetoothHci :=
  {| mState := mState s; mCb := mCb s; mFd := mFd s; management_ := management_ s;
     mH4 := mH4 s; mFdWatcher := mFdWatcher s;
     mDeathRecipient := v |}.

(** Modelled from the spec: BluetoothHci.h, which holds the in-class member
    initialisers, is not in the sources.  A fresh bridge is Idle with no client
    and no device; the constructor in BluetoothHci.cpp allocates the death
    recipient, whose [has_died_] starts false and whose [mCb] is null. *)
Definition BluetoothHci_new : BluetoothHci :=
  {| mState := READY; mCb := None; mFd := -1; management_ := None;
     mH4 := None; mFdWatcher := None;
     mDeathRecipient := {| dr_mCb := None; has_died_ := false |} |}.

(** ** The monad: fields, trace, process termination *)

Inductive Abort : Type :=
| Fatal (msg : string)          (* LOG_ALWAYS_FATAL / LOG_ALWAYS_FATAL_IF *)
| NullDereference.              (* a call through a null pointer *)

Inductive Outcome (A : Type) : Type :=
| Ret (a : A) (s : BluetoothHci) (tr : Trace)
| Stop (why : Abort) (tr : Trace).
Arguments Ret {A} a s tr.
Arguments Stop {A} why tr.

Definition M (A : Type) : Type := BluetoothHci -> Outcome A.

Definition ret {A} (a : A) : M A := fun s => Ret a s [].

Definition bind {A B} (m : M A) (f : A -> M B) : M B :=
  fun s =>
    match m s with
    | Ret a s1 tr1 =>
        match f a s1 with
        | Ret b s2 tr2 => Ret b s2 (tr1 ++ tr2)
        | Stop why tr2 => Stop why (tr1 ++ tr2)
        end
    | Stop why tr1 => Stop why tr1
    end.

Declare Scope hal_scope.
Delimit Scope hal_scope with hal.
Notation "x <- m ;; k" := (bind m (fun x => k))
  (at level 61, m at next level, right associativity) : hal_scope.
Notation "m ;; k" := (bind m (fun _ => k))
  (at level 61, right associativity) : hal_scope.
Local Open Scope hal_scope.

Definition emit (e : Event) : M unit := fun s => Ret tt s [e].
Definition gets {A} (f : BluetoothHci -> A) : M A := fun s => Ret (f s) s [].
Definition modify (f : BluetoothHci -> BluetoothHci) : M unit :=
  fun s => Ret tt (f s) [].
Definition abort {A} (why : Abort) : M A := fun _ => Stop why [].

Definition ALOGI (msg : string) : M unit := emit (ALOG INFO msg).
Definition ALOGE (msg : string) : M unit := emit (ALOG ERROR msg).
Definition LOG_ALWAYS_FATAL {A} (msg : string) : M A := abort (Fatal msg).
Definition LOG_ALWAYS_FATAL_IF (c : bool) (msg : string) : M unit :=
  if c then LOG_ALWAYS_FATAL msg else ret tt.

(** [std::lock_guard]: taken where it is declared, dropped at the end of its
    scope. *)
Definition lock_guard (m : Mutex) : M unit := emit (Lock m).
Definition unlock (m : Mutex) : M unit := emit (Unlock m).

(** ** Collaborators *)

(** [~NetBluetoothMgmt] (net_bluetooth_mgmt.h) closes [bt_fd_];
    [management_.reset(p)] runs it on the object being replaced. *)
Definition management_reset (p : option NetBluetoothMgmt) : M unit :=
  old <- gets management_ ;;
  match old with
  | Some m => emit (DtorClose (bt_fd_ m))
  | None => ret tt
  end ;;
  modify (set_management_ p).

(** A default-constructed [NetBluetoothMgmt]: [bt_fd_{-1}]. *)
Definition NetBluetoothMgmt_new : NetBluetoothMgmt := {| bt_fd_ := -1 |}.

(** Modelled from the spec: [NetBluetoothMgmt::openHci] is declared in
    net_bluetooth_mgmt.h but its body is not in the sources.  It returns the
    opened descriptor, which the object keeps, or a negative value when the
    device cannot be acquired; the value [fd] is what the system answered. *)
Definition openHci (fd : Z) : M Z :=
  mg <- gets management_ ;;
  match mg with
  | None => abort NullDereference
  | Some _ =>
      emit (OpenHci fd) ;;
      (if fd <? 0 then ret tt
       else modify (set_management_ (Some {| bt_fd_ := fd |}))) ;;
      ret fd
  end.

(** Modelled from the spec: [NetBluetoothMgmt::closeHci], body not in the
    sources, closes the descriptor. *)
Definition closeHci : M unit :=
  mg <- gets management_ ;;
  match mg with
  | None => abort NullDereference
  | Some m =>
      emit (CloseHci (bt_fd_ m)) ;;
      modify (set_management_ (Some {| bt_fd_ := -1 |}))
  end.

(** The device handle exists: the management object holds an open descriptor. *)
Definition device_open (s : BluetoothHci) : bool :=
  match management_ s with
  | Some m => 0 <=? bt_fd_ m
  | None => false
  end.

(** [AsyncFdWatcher]. *)
Definition WatchFdForNonBlockingReads (fd : Z) : M unit :=
  emit (WatchFd fd) ;;
  modify (set_mFdWatcher (Some fd)).

Definition StopWatchingFileDescriptors : M unit :=
  emit StopWatching ;;
  modify (set_mFdWatcher None).

(** [H4Protocol::Send]: one framed write to the descriptor of the codec. *)
Definition H4Protocol_Send (h : H4Protocol) (ty : PacketType) (v : Packet)
  : M unit :=
  emit (H4Send (h4_fd h) ty v).

(** A method call through a callback pointer. *)
Definition call_cb (cb : Callbacks) (e : CallbackRef -> Event) : M unit :=
  match cb with
  | Some c => emit (e c)
  | None => abort NullDereference
  end.

(** ** BluetoothHci::close *)

Definition close : M ScopedAStatus :=
  ALOGI "close" ;;
  lock_guard mStateMutex ;;
  st <- gets mState ;;
  if negb (HalState_eqb st ONE_CLIENT) then
    LOG_ALWAYS_FATAL_IF (HalState_eqb st INITIALIZING) "mState is INITIALIZING" ;;
    ALOGI "Already closed" ;;
    unlock mStateMutex ;;
    ret ok
  else
    modify (set_mState CLOSING) ;;
    unlock mStateMutex ;;
    StopWatchingFileDescriptors ;;
    closeHci ;;
    lock_guard mStateMutex ;;
    modify (set_mState READY) ;;
    modify (set_mH4 None) ;;
    unlock mStateMutex ;;
    ret ok.

(** ** BluetoothDeathRecipient *)

Definition set_dr_mCb (v : Callbacks) (s : BluetoothHci) : BluetoothHci :=
  set_mDeathRecipient
    {| dr_mCb := v; has_died_ := has_died_ (mDeathRecipient s) |} s.

Definition set_has_died_ (v : bool) (s : BluetoothHci) : BluetoothHci :=
  set_mDeathRecipient
    {| dr_mCb := dr_mCb (mDeathRecipient s); has_died_ := v |} s.

(** [link_ok]: whether [AIBinder_linkToDeath] answered [STATUS_OK]. *)
Definition LinkToDeath (cb : Callbacks) (link_ok : bool) : M unit :=
  modify (set_dr_mCb cb) ;;
  emit AIBinder_DeathRecipient_new ;;
  call_cb cb AIBinder_linkToDeath ;;
  LOG_ALWAYS_FATAL_IF (negb link_ok) "Unable to link to death recipient".

Definition UnlinkToDeath (cb : Callbacks) : M unit :=
  registered <- gets (fun s => dr_mCb (mDeathRecipient s)) ;;
  LOG_ALWAYS_FATAL_IF (negb (Callbacks_eqb cb registered))
    "Unable to unlink mismatched pointers".

Definition getHasDied : M bool :=
  lock_guard mHasDiedMutex ;;
  b <- gets (fun s => has_died_ (mDeathRecipient s)) ;;
  unlock mHasDiedMutex ;;
  ret b.

(** [alive]: the answer of [AIBinder_isAlive] for the registered callback. *)
Definition serviceDied (alive : bool) : M unit :=
  registered <- gets (fun s => dr_mCb (mDeathRecipient s)) ;;
  if match registered with Some _ => negb alive | None => false end then
    ALOGE "Bluetooth remote service has died" ;;
    lock_guard mHasDiedMutex ;;
    emit SetHasDied ;;
    modify (set_has_died_ true) ;;
    unlock mHasDiedMutex ;;
    _ <- close ;;
    ret tt
  else
    ALOGE "BluetoothDeathRecipient::serviceDied called but service not dead".

(** The cookie is the death recipient of this bridge. *)
Definition OnDeath (alive : bool) : M unit := serviceDied alive.

(** ** BluetoothHci::initialize *)

(** What the surroundings answer during one call of [initialize]. *)
Record InitEnv : Type := {
  openHci_result : Z;                  (* management_->openHci() *)
  linkToDeath_ok : bool;               (* AIBinder_linkToDeath == STATUS_OK *)
  initializationComplete_ok : bool     (* status.isOk() of the SUCCESS call *)
}.

Definition initialize (cb : Callbacks) (env : InitEnv) : M ScopedAStatus :=
  ALOGI "initialize" ;;
  match cb with
  | None =>
      ALOGE "cb == nullptr! -> Unable to call initializationComplete(ERR)" ;;
      ret (fromServiceSpecificError STATUS_BAD_VALUE)
  | Some _ =>
      lock_guard mStateMutex ;;
      st <- gets mState ;;
      old_state <-
        (if negb (HalState_eqb st READY) then ret st
         else modify (set_mState INITIALIZING) ;; ret READY) ;;
      unlock mStateMutex ;;
      if negb (HalState_eqb old_state READY) then
        emit (ALOG_state ERROR "initialize: Unexpected State %d" old_state) ;;
        _ <- close ;;
        call_cb cb (fun c => initializationComplete c ALREADY_INITIALIZED) ;;
        ret ok
      else
        modify (set_mCb cb) ;;
        management_reset (Some NetBluetoothMgmt_new) ;;
        fd <- openHci (openHci_result env) ;;
        modify (set_mFd fd) ;;
        if fd <? 0 then
          management_reset None ;;
          ALOGI "Unable to open Linux interface." ;;
          modify (set_mState READY) ;;
          call_cb cb (fun c => initializationComplete c UNABLE_TO_OPEN_INTERFACE) ;;
          ret ok
        else
          member_cb <- gets mCb ;;
          LinkToDeath member_cb (linkToDeath_ok env) ;;
          modify (set_mH4 (Some {| h4_fd := fd |})) ;;
          WatchFdForNonBlockingReads fd ;;
          lock_guard mStateMutex ;;
          modify (set_mState ONE_CLIENT) ;;
          unlock mStateMutex ;;
          ALOGI "initialization complete" ;;
          member_cb' <- gets mCb ;;
          call_cb member_cb' (fun c => initializationComplete c SUCCESS) ;;
          if negb (initializationComplete_ok env) then
            died <- getHasDied ;;
            (if negb died
             then ALOGE "Error sending init callback, but no death notification"
             else ret tt) ;;
            _ <- close ;;
            ret (fromServiceSpecificError STATUS_FAILED_TRANSACTION)
          else
            ret ok
  end.

(** ** BluetoothHci::send and its four entry points *)

Definition is_empty {A} (v : list A) : bool :=
  match v with [] => true | _ => false end.

Definition send (type : PacketType) (v : Packet) : M ScopedAStatus :=
  if is_empty v then
    ALOGE "Packet is empty, no data was found to be sent" ;;
    ret (fromExceptionCode EX_ILLEGAL_ARGUMENT)
  else
    lock_guard mStateMutex ;;
    h4 <- gets mH4 ;;
    match h4 with
    | None =>
        unlock mStateMutex ;;
        ret (fromExceptionCode EX_ILLEGAL_STATE)
    | Some h =>
        H4Protocol_Send h type v ;;
        unlock mStateMutex ;;
        ret ok
    end.

Definition sendHciCommand (packet : Packet) : M ScopedAStatus := send COMMAND packet.
Definition sendAclData (packet : Packet) : M ScopedAStatus := send ACL_DATA packet.
Definition sendScoData (packet : Packet) : M ScopedAStatus := send SCO_DATA packet.
Definition sendIsoData (packet : Packet) : M ScopedAStatus := send ISO_DATA packet.

(** ** The callbacks given to the codec in [initialize] *)

Definition cmd_cb (raw_command : Packet) : M unit :=
  LOG_ALWAYS_FATAL "Unexpected command!".

Definition acl_cb (raw_acl : Packet) : M unit :=
  cb <- gets mCb ;; call_cb cb (fun c => aclDataReceived c raw_acl).

Definition sco_cb (raw_sco : Packet) : M unit :=
  cb <- gets mCb ;; call_cb cb (fun c => scoDataReceived c raw_sco).

Definition event_cb (raw_event : Packet) : M unit :=
  cb <- gets mCb ;; call_cb cb (fun c => hciEventReceived c raw_event).

Definition iso_cb (raw_iso : Packet) : M unit :=
  cb <- gets mCb ;; call_cb cb (fun c => isoDataReceived c raw_iso).

Definition disconnect_cb : M unit :=
  ALOGI "HCI socket device disconnected" ;;
  StopWatchingFileDescriptors.

(** Modelled from the spec: the codec [H4Protocol] is an external class.  It
    hands each completed inbound frame to exactly one callback, chosen by the
    frame's kind, in the order the constructor of [initialize] lists them. *)
Definition OnPacketReady (f : Frame) : M unit :=
  match fst f with
  | COMMAND => cmd_cb (snd f)
  | ACL_DATA => acl_cb (snd f)
  | SCO_DATA => sco_cb (snd f)
  | EVENT => event_cb (snd f)
  | ISO_DATA => iso_cb (snd f)
  end.

Fixpoint OnPacketsReady (frames : list Frame) : M unit :=
  match frames with
  | [] => ret tt
  | f :: rest => OnPacketReady f ;; OnPacketsReady rest
  end.

(** What one readiness event finds on the descriptor. *)
Inductive H4Read : Type :=
| ReadFrames (frames : list Frame)     (* the frames completed by this read *)
| ReadEof.                             (* end of stream: the device is gone *)

(** The watcher's callback [[this](int) { mH4->OnDataReady(); }]. *)
Definition OnDataReady (r : H4Read) : M unit :=
  h4 <- gets mH4 ;;
  match h4 with
  | None => abort NullDereference
  | Some _ =>
      match r with
      | ReadFrames frames => OnPacketsReady frames
      | ReadEof => disconnect_cb
      end
  end.

(** ** Sequences of calls *)

Inductive Op : Type :=
| OpInitialize (cb : Callbacks) (env : InitEnv)
| OpClose
| OpSend (type : PacketType) (v : Packet)
| OpOnDeath (alive : bool)
| OpDataReady (r : H4Read).

(** One call; the watcher only calls back while it watches a descriptor. *)
Definition step (o : Op) : M unit :=
  match o with
  | OpInitialize cb env => _ <- initialize cb env ;; ret tt
  | OpClose => _ <- close ;; ret tt
  | OpSend type v => _ <- send type v ;; ret tt
  | OpOnDeath alive => OnDeath alive
  | OpDataReady r =>
      w <- gets mFdWatcher ;;
      match w with
      | Some _ => OnDataReady r
      | None => ret tt
      end
  end.

Fixpoint run (ops : list Op) : M unit :=
  match ops with
  | [] => ret tt
  | o :: rest => step o ;; run rest
  end.

(** Projections of an outcome. *)
Definition trace_of {A} (o : Outcome A) : Trace :=
  match o with Ret _ _ tr => tr | Stop _ tr => tr end.

Definition state_of {A} (o : Outcome A) : option BluetoothHci :=
  match o with Ret _ s _ => Some s | Stop _ _ => None end.

Definition terminated {A} (o : Outcome A) : bool :=
  match o with Ret _ _ _ => false | Stop _ _ => true end.

(** ** Inbound byte streams *)

Section InboundStream.
(** The packetizer inside the external codec: from its buffered state and
    the bytes one read delivers, the frames this read completes. *)
Variable Decoder : Type.
Variable h4_read : Decoder -> list Byte.byte -> Decoder * list Frame.

(** All frames completed over a stream that arrives in [chunks]. *)
Fixpoint assembled (d : Decoder) (chunks : list (list Byte.byte))
  : list Frame :=
  match chunks with
  | [] => []
  | c :: rest =>
      let (d', frames) := h4_read d c in frames ++ assembled d' rest
  end.

(** One readiness event per chunk. *)
Fixpoint OnDataReady_stream (d : Decoder) (chunks : list (list Byte.byte))
  : M unit :=
  match chunks with
  | [] => ret tt
  | c :: rest =>
      let (d', frames) := h4_read d c in
      OnDataReady (ReadFrames frames) ;; OnDataReady_stream d' rest
  end.
End InboundStream.

(** ** Sample inputs *)

Definition client : CallbackRef := 1%nat.

Definition env_device_ok : InitEnv :=
  {| openHci_result := 7; linkToDeath_ok := true;
     initializationComplete_ok := true |}.

Definition env_no_device : InitEnv :=
  {| openHci_result := -1; linkToDeath_ok := true;
     initializationComplete_ok := true |}.

Definition env_callback_rejected : InitEnv :=
  {| openHci_result := 7; linkToDeath_ok := true;
     initializationComplete_ok := false |}.

(** The bridge after one successful [initialize]. *)
Definition active_session : BluetoothHci :=
  {| mState := ONE_CLIENT; mCb := Some client; mFd := 7;
     management_ := Some {| bt_fd_ := 7 |};
     mH4 := Some {| h4_fd := 7 |}; mFdWatcher := Some 7;
     mDeathRecipient := {| dr_mCb := Some client; has_died_ := false |} |}.

(** The bridge as a second thread finds it while a first one is inside
    [initialize], past the state check and before the device is open. *)
Definition mid_initialize : BluetoothHci :=
  set_mState INITIALIZING BluetoothHci_new.

(** A toy packetizer for the examples: every byte read is a frame of its own,
    of kind Command for the byte 0x01 and of kind Event otherwise. *)
Definition byte_frames (d : unit) (c : list Byte.byte) : unit * list Frame :=
  (d, map (fun b =>
             match b with
             | Byte.x01 => (COMMAND, [b])
             | _ => (EVENT, [b])
             end) c).

(** ** Observations on traces *)

(** The frames written to the device. *)
Fixpoint writes (tr : Trace) : list (Z * PacketType * Packet) :=
  match tr with
  | [] => []
  | H4Send fd ty p :: rest => (fd, ty, p) :: writes rest
  | _ :: rest => writes rest
  end.

(** How often the binder link to the client's death is released. *)
Fixpoint unlink_count (tr : Trace) : nat :=
  match tr with
  | [] => O
  | AIBinder_unlinkToDeath _ :: rest => S (unlink_count rest)
  | _ :: rest => unlink_count rest
  end.

Fixpoint link_count (tr : Trace) : nat :=
  match tr with
  | [] => O
  | AIBinder_linkToDeath _ :: rest => S (link_count rest)
  | _ :: rest => link_count rest
  end.

Definition Mutex_eqb (a b : Mutex) : bool :=
  match a, b with
  | mStateMutex, mStateMutex | mHasDiedMutex, mHasDiedMutex => true
  | _, _ => false
  end.

(** The mutexes held, innermost first, at the moment [has_died_] is written;
    [None] when the trace never writes it. *)
Fixpoint locks_held_at_SetHasDied (held : list Mutex) (tr : Trace)
  : option (list Mutex) :=
  match tr with
  | [] => None
  | SetHasDied :: _ => Some held
  | Lock m :: rest => locks_held_at_SetHasDied (m :: held) rest
  | Unlock m :: rest =>
      locks_held_at_SetHasDied
        (filter (fun x => negb (Mutex_eqb x m)) held) rest
  | _ :: rest => locks_held_at_SetHasDied held rest
  end.

(** ** The invariant between complete calls *)

Definition session_invariant (s : BluetoothHci) : Prop :=
  (mState s = READY \/ mState s = ONE_CLIENT) /\
  (mH4 s <> None <-> mState s = ONE_CLIENT) /\
  (device_open s = true <-> mState s = ONE_CLIENT) /\
  (mState s = ONE_CLIENT ->
   mCb s <> None /\ dr_mCb (mDeathRecipient s) = mCb s) /\
  (mFdWatcher s <> None -> mState s = ONE_CLIENT).

(** A state a sequence of complete calls leads to from a fresh bridge. *)
Definition reachable (s : BluetoothHci) : Prop :=
  exists ops tr, run ops BluetoothHci_new = Ret tt s tr.

(** ** Further observations on traces *)

(** The completion notifications of a trace, in order. *)
Fixpoint completions (tr : Trace) : list (CallbackRef * Status) :=
  match tr with
  | [] => []
  | initializationComplete c st :: rest => (c, st) :: completions rest
  | _ :: rest => completions rest
  end.

(** Mutex discipline: scanning a trace with the mutex currently held, a
    [Lock] is allowed only when none is held and an [Unlock] only for the one
    that is.  The result is the mutex held at the end, or [None] when the
    trace breaks the discipline. *)
Fixpoint lock_discipline (held : option Mutex) (tr : Trace)
  : option (option Mutex) :=
  match tr with
  | [] => Some held
  | Lock m :: rest =>
      match held with
      | None => lock_discipline (Some m) rest
      | Some _ => None
      end
  | Unlock m :: rest =>
      match held with
      | Some h => if Mutex_eqb h m then lock_discipline None rest else None
      | None => None
      end
  | _ :: rest => lock_discipline held rest
  end.

(** Device discipline: scanning a trace with the descriptor currently open,
    [openHci] is called only when none is open, [closeHci] only when one is,
    and the watcher and the codec are only ever given the open descriptor.
    The result is the descriptor open at the end, or [None] when the trace
    breaks the discipline. *)
Fixpoint device_discipline (opened : option Z) (tr : Trace)
  : option (option Z) :=
  match tr with
  | [] => Some opened
  | OpenHci fd :: rest =>
      match opened with
      | None => device_discipline (if fd <? 0 then None else Some fd) rest
      | Some _ => None
      end
  | CloseHci _ :: rest =>
      match opened with
      | Some _ => device_discipline None rest
      | None => None
      end
  | WatchFd fd :: rest =>
      match opened with
      | Some o => if o =? fd then device_discipline opened rest else None
      | None => None
      end
  | H4Send fd _ _ :: rest =>
      match opened with
      | Some o => if o =? fd then device_discipline opened rest else None
      | None => None
      end
  | _ :: rest => device_discipline opened rest
  end.

(** The call on the client's callback object that an inbound frame turns
    into; a Command frame has none. *)
Definition delivery (c : CallbackRef) (f : Frame) : option Event :=
  match fst f with
  | COMMAND => None
  | ACL_DATA => Some (aclDataReceived c (snd f))
  | SCO_DATA => Some (scoDataReceived c (snd f))
  | EVENT => Some (hciEventReceived c (snd f))
  | ISO_DATA => Some (isoDataReceived c (snd f))
  end.

(** Whether a call is a death notification. *)
Definition is_death_notification (o : Op) : bool :=
  match o with
  | OpOnDeath _ => true
  | _ => false
  end.

(** The codec, when there is one, sits on the descriptor the management
    object holds, and the watcher watches nothing else. *)
Definition codec_bound (s : BluetoothHci) : Prop :=
  forall h, mH4 s = Some h ->
    management_ s = Some {| bt_fd_ := h4_fd h |} /\
    0 <= h4_fd h /\ mFd s = h4_fd h /\ mFdWatcher s = None \/
    management_ s = Some {| bt_fd_ := h4_fd h |} /\
    0 <= h4_fd h /\ mFd s = h4_fd h /\ mFdWatcher s = Some (h4_fd h).

Definition bound_invariant (s : BluetoothHci) : Prop :=
  session_invariant s /\ codec_bound s.

(** An outcome whose trace keeps the mutex discipline, with every mutex
    released if the call returned. *)
Definition locks_ok {A} (o : Outcome A) : Prop :=
  exists h,
    lock_discipline None (trace_of o) = Some h /\
    (terminated o = false -> h = None).

(** A trace that does not touch the device. *)
Definition device_quiet (tr : Trace) : Prop :=
  forall o, device_discipline o tr = Some o.

(** The descriptor the scan believes open is the one the codec is bound to. *)
Definition device_tracked {A} (o : option Z) (out : Outcome A) : Prop :=
  exists o',
    device_discipline o (trace_of out) = Some o' /\
    (forall a s' tr, out = Ret a s' tr -> o' = option_map h4_fd (mH4 s')).

(** * The USB gadget HAL

    A shallow embedding of [usb/UsbGadget.cpp].  The member functions of
    [UsbGadget] thread its three data members and record, in program order,
    what they do to the outside world: log lines, the request mutex, files
    under sysfs and configfs, the helpers of the common gadget library and
    the calls on the client's callback object.  What the outside world
    answers is an input of each function. *)

Module Usb.

(** The AIDL [Status] of the gadget interface, as far as the file names it. *)
Inductive Status : Type :=
| SUCCESS | ERROR | FUNCTIONS_APPLIED | FUNCTIONS_NOT_APPLIED
| CONFIGURATION_NOT_SUPPORTED.

Definition Status_eqb (a b : Status) : bool :=
  match a, b with
  | SUCCESS, SUCCESS | ERROR, ERROR | FUNCTIONS_APPLIED, FUNCTIONS_APPLIED
  | FUNCTIONS_NOT_APPLIED, FUNCTIONS_NOT_APPLIED
  | CONFIGURATION_NOT_SUPPORTED, CONFIGURATION_NOT_SUPPORTED => true
  | _, _ => false
  end.

(** The AIDL [UsbSpeed] values the file names. *)
Inductive UsbSpeed : Type :=
| UNKNOWN | LOWSPEED | FULLSPEED | HIGHSPEED | SUPERSPEED | SUPERSPEED_10Gb.

Inductive binder_exception_t : Type := EX_NULL_POINTER.

(** [ndk::ScopedAStatus]. *)
Inductive ScopedAStatus : Type :=
| ok
| fromExceptionCode (e : binder_exception_t)
| fromServiceSpecificErrorWithMessage (code : Z) (msg : string).

Definition isOk (r : ScopedAStatus) : bool :=
  match r with ok => true | _ => false end.

(** The constants of the AIDL parcelable [GadgetFunction].  Their values are
    not in the sources; the functions below take them as a parameter. *)
Record GadgetFunction : Type := {
  NONE : Z; ADB : Z; ACCESSORY : Z; MTP : Z; MIDI : Z; PTP : Z; RNDIS : Z;
  AUDIO_SOURCE : Z; NCM : Z
}.

(** The files the functions touch, by the name of their macro. *)
Inductive Path : Type := PULLUP_PATH | SPEED_PATH.

Definition kGadgetName : string := "fe980000.usb".

(** Conversion of an [int64_t] to [uint64_t]. *)
Definition to_uint64 (x : Z) : Z := x mod 2 ^ 64.

(** What the gadget does to the outside world, in program order; where the
    outside world answers, the answer is part of the event. *)
Inductive Event : Type :=
| ALOGI (msg : string)
| ALOGE (msg : string)
| ALOGI_s (fmt : string) (arg : string)
| Lock_mLockSetCurrentFunction
| Unlock_mLockSetCurrentFunction
| ReadFileToString (p : Path) (content : option string)
| WriteStringToFile (content : string) (p : Path) (written : bool)
| usleep_kDisconnectWaitUs
| resetGadget (r : Status)
| monitorFfs_reset
| monitorFfs_registerFunctionsAppliedCallback
| monitorFfs_startMonitor
| monitorFfs_waitForPullUp (timeout : Z) (pullup : bool)
| setVidPid (vid pid : string) (r : Status)
| addGenericAndroidFunctions (functions : Z) (r : Status) (ffsEnabled : bool)
| addAdb (r : Status)
| getCurrentUsbFunctionsCb (cb : CallbackRef) (functions : Z) (st : Status)
    (transactionId : Z)
| getUsbSpeedCb (cb : CallbackRef) (speed : UsbSpeed) (transactionId : Z)
| resetCb (cb : CallbackRef) (st : Status) (transactionId : Z)
| setCurrentUsbFunctionsCb (cb : CallbackRef) (functions : Z) (st : Status)
    (transactionId : Z).

Definition Trace : Type := list Event.

(** The data members of [struct UsbGadget]; [long] and [int64_t] coincide on
    the 64-bit targets the service is built for. *)
Record UsbGadget : Type := {
  mCurrentUsbFunctions : Z;
  mCurrentUsbFunctionsApplied : bool;
  mUsbSpeed : UsbSpeed
}.

Definition set_mCurrentUsbFunctions (v : Z) (g : UsbGadget) : UsbGadget :=
  {| mCurrentUsbFunctions := v;
     mCurrentUsbFunctionsApplied := mCurrentUsbFunctionsApplied g;
     mUsbSpeed := mUsbSpeed g |}.

Definition set_mCurrentUsbFunctionsApplied (v : bool) (g : UsbGadget)
  : UsbGadget :=
  {| mCurrentUsbFunctions := mCurrentUsbFunctions g;
     mCurrentUsbFunctionsApplied := v;
     mUsbSpeed := mUsbSpeed g |}.

Definition set_mUsbSpeed (v : UsbSpeed) (g : UsbGadget) : UsbGadget :=
  {| mCurrentUsbFunctions := mCurrentUsbFunctions g;
     mCurrentUsbFunctionsApplied := mCurrentUsbFunctionsApplied g;
     mUsbSpeed := v |}.

(** A computation on the gadget: result, new members, what it did. *)
Definition M (A : Type) : Type := UsbGadget -> A * UsbGadget * Trace.

Definition ret {A} (a : A) : M A := fun g => (a, g, []).

Definition bind {A B} (m : M A) (f : A -> M B) : M B :=
  fun g =>
    let '(a, g1, tr1) := m g in
    let '(b, g2, tr2) := f a g1 in
    (b, g2, tr1 ++ tr2).

Declare Scope usb_scope.
Delimit Scope usb_scope with usb.
Notation "x <- m ;; k" := (bind m (fun x => k))
  (at level 61, m at next level, right associativity) : usb_scope.
Notation "m ;; k" := (bind m (fun _ => k))
  (at level 61, right associativity) : usb_scope.
Local Open Scope usb_scope.

Definition emit (e : Event) : M unit := fun g => (tt, g, [e]).
Definition gets {A} (f : UsbGadget -> A) : M A := fun g => (f g, g, []).
Definition modify (f : UsbGadget -> UsbGadget) : M unit :=
  fun g => (tt, f g, []).

Definition result_of {A} (o : A * UsbGadget * Trace) : A := fst (fst o).
Definition gadget_of {A} (o : A * UsbGadget * Trace) : UsbGadget :=
  snd (fst o).
Definition trace_of {A} (o : A * UsbGadget * Trace) : Trace := snd o.

(** [if (callback) callback->method(...)]. *)
Definition when_callback (callback : Callbacks) (e : CallbackRef -> Event)
  : M unit :=
  match callback with
  | Some c => emit (e c)
  | None => ret tt
  end.

(** [currentFunctionsAppliedCallback], which the monitor calls with the
    gadget as payload. *)
Definition currentFunctionsAppliedCallback (functionsApplied : bool) : M unit :=
  modify (set_mCurrentUsbFunctionsApplied functionsApplied).

(** ** getCurrentUsbFunctions *)

Definition getCurrentUsbFunctions (callback : Callbacks) (in_transactionId : Z)
  (callback_ok : bool) : M ScopedAStatus :=
  match callback with
  | None => ret (fromExceptionCode EX_NULL_POINTER)
  | Some c =>
      functions <- gets mCurrentUsbFunctions ;;
      applied <- gets mCurrentUsbFunctionsApplied ;;
      emit (getCurrentUsbFunctionsCb c functions
              (if applied then FUNCTIONS_APPLIED else FUNCTIONS_NOT_APPLIED)
              in_transactionId) ;;
      (if negb callback_ok
       then emit (ALOGE "Call to getCurrentUsbFunctionsCb failed %s")
       else ret tt) ;;
      ret ok
  end.

(** ** getUsbSpeed *)

(** The chain of comparisons on the trimmed content of the speed file. *)
Definition speed_of (current_speed : string) : UsbSpeed :=
  if String.eqb current_speed "low-speed" then LOWSPEED
  else if String.eqb current_speed "full-speed" then FULLSPEED
  else if String.eqb current_speed "high-speed" then HIGHSPEED
  else if String.eqb current_speed "super-speed" then SUPERSPEED
  else if String.eqb current_speed "super-speed-plus" then SUPERSPEED_10Gb
  else if String.eqb current_speed "UNKNOWN" then UNKNOWN
  else UNKNOWN.

Section WithLibraries.
(** [android::base::Trim], of the base library. *)
Variable Trim : string -> string.
(** The constants of [GadgetFunction] and [kDebug] of the common gadget
    header. *)
Variable GF : GadgetFunction.
Variable kDebug : bool.

(** [file]: what [ReadFileToString] finds, [None] when it fails. *)
Definition getUsbSpeed (callback : Callbacks) (in_transactionId : Z)
  (file : option string) (callback_ok : bool) : M ScopedAStatus :=
  emit (ReadFileToString SPEED_PATH file) ;;
  match file with
  | Some content =>
      emit (ALOGI_s "current USB speed is %s" (Trim content)) ;;
      modify (set_mUsbSpeed (speed_of (Trim content)))
  | None =>
      emit (ALOGE "Fail to read current speed") ;;
      modify (set_mUsbSpeed UNKNOWN)
  end ;;
  match callback with
  | Some c =>
      speed <- gets mUsbSpeed ;;
      emit (getUsbSpeedCb c speed in_transactionId) ;;
      if negb callback_ok
      then emit (ALOGE "Call to getUsbSpeedCb failed %s")
      else ret tt
  | None => ret tt
  end ;;
  ret ok.

(** ** reset *)

Record ResetEnv : Type := {
  pulldown_written : bool;   (* WriteStringToFile("none", PULLUP_PATH) *)
  pullup_written : bool      (* WriteStringToFile(kGadgetName, PULLUP_PATH) *)
}.

Definition reset (callback : Callbacks) (in_transactionId : Z) (env : ResetEnv)
  : M ScopedAStatus :=
  emit (WriteStringToFile "none" PULLUP_PATH (pulldown_written env)) ;;
  if negb (pulldown_written env) then
    emit (ALOGI "Gadget cannot be pulled down") ;;
    when_callback callback (fun c => resetCb c ERROR in_transactionId) ;;
    ret (fromServiceSpecificErrorWithMessage (-1) "Error while calling resetCb")
  else
    emit usleep_kDisconnectWaitUs ;;
    emit (WriteStringToFile kGadgetName PULLUP_PATH (pullup_written env)) ;;
    if negb (pullup_written env) then
      emit (ALOGI "Gadget cannot be pulled up") ;;
      when_callback callback (fun c => resetCb c ERROR in_transactionId) ;;
      ret (fromServiceSpecificErrorWithMessage (-1)
             "Error while calling resetCb")
    else
      when_callback callback (fun c => resetCb c SUCCESS in_transactionId) ;;
      ret ok.

(** ** setCurrentUsbFunctions and its helpers *)

(** What the outside world answers during one [setCurrentUsbFunctions]. *)
Record SetEnv : Type := {
  resetGadget_result : Status;
  isMonitorRunning : bool;
  setVidPid_result : Status;
  addGenericAndroidFunctions_result : Status;
  addGenericAndroidFunctions_ffsEnabled : bool;  (* left in [ffsEnabled] *)
  addAdb_result : Status;
  gadget_pulled_up : bool;     (* WriteStringToFile(kGadgetName, PULLUP_PATH) *)
  monitor_applied_reports : list bool;  (* see [setupFunctions] *)
  waitForPullUp_result : bool;
  setCurrentUsbFunctionsCb_ok : bool
}.

Definition tearDownGadget (env : SetEnv) : M Status :=
  emit (resetGadget (resetGadget_result env)) ;;
  if negb (Status_eqb (resetGadget_result env) SUCCESS) then ret ERROR
  else
    (if isMonitorRunning env then emit monitorFfs_reset
     else emit (ALOGI "mMonitor not running")) ;;
    ret SUCCESS.

(** The case labels of [validateAndSetVidPid] with the product id each one
    sets, in the order of the source. *)
Definition vid_pid_cases : list (Z * string) :=
  [ (MTP GF, "0x4ee1");
    (Z.lor (ADB GF) (MTP GF), "0x4ee2");
    (RNDIS GF, "0x4ee3");
    (Z.lor (ADB GF) (RNDIS GF), "0x4ee4");
    (PTP GF, "0x4ee5");
    (Z.lor (ADB GF) (PTP GF), "0x4ee6");
    (ADB GF, "0x4ee7");
    (MIDI GF, "0x4ee8");
    (Z.lor (ADB GF) (MIDI GF), "0x4ee9");
    (NCM GF, "0x4eeb");
    (Z.lor (ADB GF) (NCM GF), "0x4eec");
    (ACCESSORY GF, "0x2d00");
    (Z.lor (ADB GF) (ACCESSORY GF), "0x2d01");
    (AUDIO_SOURCE GF, "0x2d02");
    (Z.lor (ADB GF) (AUDIO_SOURCE GF), "0x2d03");
    (Z.lor (ACCESSORY GF) (AUDIO_SOURCE GF), "0x2d04");
    (Z.lor (Z.lor (ADB GF) (ACCESSORY GF)) (AUDIO_SOURCE GF), "0x2d05") ].

(** The [switch]: the label equal to the value switched on, if any. *)
Fixpoint switch_on (functions : Z) (cases : list (Z * string))
  : option string :=
  match cases with
  | [] => None
  | (label, pid) :: rest =>
      if to_uint64 label =? functions then Some pid
      else switch_on functions rest
  end.

(** [functions] is the argument already converted to [uint64_t]. *)
Definition validateAndSetVidPid (functions : Z) (env : SetEnv) : M Status :=
  match switch_on functions vid_pid_cases with
  | Some pid =>
      emit (setVidPid "0x18d1" pid (setVidPid_result env)) ;;
      ret (setVidPid_result env)
  | None =>
      emit (ALOGE "Combination not supported") ;;
      ret CONFIGURATION_NOT_SUPPORTED
  end.

(** Once started, the monitor thread calls [currentFunctionsAppliedCallback]
    whenever it likes, whether or not the caller waits.  Nothing in
    [setupFunctions] reads the flag after [startMonitor], so the calls the
    monitor makes before [setupFunctions] returns, [monitor_applied_reports]
    in their order, are applied in one go right after [startMonitor]; those
    it makes later are separate calls of [currentFunctionsAppliedCallback]. *)
Fixpoint monitor_reports (reports : list bool) : M unit :=
  match reports with
  | [] => ret tt
  | b :: rest => currentFunctionsAppliedCallback b ;; monitor_reports rest
  end.

Definition setupFunctions (functions : Z) (callback : Callbacks) (timeout : Z)
  (in_transactionId : Z) (env : SetEnv) : M Status :=
  emit (addGenericAndroidFunctions functions
          (addGenericAndroidFunctions_result env)
          (addGenericAndroidFunctions_ffsEnabled env)) ;;
  if negb (Status_eqb (addGenericAndroidFunctions_result env) SUCCESS)
  then ret ERROR
  else
    let adb := negb (Z.land functions (ADB GF) =? 0) in
    adb_added <-
      (if adb then
         emit (addAdb (addAdb_result env)) ;;
         ret (Status_eqb (addAdb_result env) SUCCESS)
       else ret true) ;;
    if negb adb_added then ret ERROR
    else
      let ffsEnabled := adb || addGenericAndroidFunctions_ffsEnabled env in
      if negb ffsEnabled then
        emit (WriteStringToFile kGadgetName PULLUP_PATH (gadget_pulled_up env)) ;;
        if negb (gadget_pulled_up env) then ret ERROR
        else
          modify (set_mCurrentUsbFunctionsApplied true) ;;
          when_callback callback
            (fun c => setCurrentUsbFunctionsCb c functions SUCCESS
                        in_transactionId) ;;
          ret SUCCESS
      else
        emit monitorFfs_registerFunctionsAppliedCallback ;;
        emit monitorFfs_startMonitor ;;
        monitor_reports (monitor_applied_reports env) ;;
        (if kDebug then emit (ALOGI "Mainthread in Cv") else ret tt) ;;
        match callback with
        | Some c =>
            emit (monitorFfs_waitForPullUp timeout (waitForPullUp_result env)) ;;
            emit (setCurrentUsbFunctionsCb c functions
                    (if waitForPullUp_result env then SUCCESS else ERROR)
                    in_transactionId) ;;
            (if negb (setCurrentUsbFunctionsCb_ok env)
             then emit (ALOGE "setCurrentUsbFunctionsCb error %s")
             else ret tt)
        | None => ret tt
        end ;;
        ret SUCCESS.

(** The code after the label [error]. *)
Definition setCurrentUsbFunctions_error (functions : Z) (callback : Callbacks)
  (in_transactionId : Z) (status : Status) (env : SetEnv) : M ScopedAStatus :=
  emit (ALOGI "Usb Gadget setcurrent functions failed") ;;
  match callback with
  | None =>
      emit Unlock_mLockSetCurrentFunction ;;
      ret (fromServiceSpecificErrorWithMessage (-1)
             "Usb Gadget setcurrent functions failed")
  | Some c =>
      emit (setCurrentUsbFunctionsCb c functions status in_transactionId) ;;
      (if negb (setCurrentUsbFunctionsCb_ok env)
       then emit (ALOGE "Error while calling setCurrentUsbFunctionsCb %s")
       else ret tt) ;;
      emit Unlock_mLockSetCurrentFunction ;;
      ret (fromServiceSpecificErrorWithMessage (-1)
             "Error while calling setCurrentUsbFunctionsCb")
  end.

Definition setCurrentUsbFunctions (functions : Z) (callback : Callbacks)
  (timeoutMs : Z) (in_transactionId : Z) (env : SetEnv) : M ScopedAStatus :=
  emit Lock_mLockSetCurrentFunction ;;
  modify (set_mCurrentUsbFunctions functions) ;;
  modify (set_mCurrentUsbFunctionsApplied false) ;;
  status <- tearDownGadget env ;;
  if negb (Status_eqb status SUCCESS) then
    setCurrentUsbFunctions_error functions callback in_transactionId status env
  else
    emit (ALOGI "Returned from tearDown gadget") ;;
    emit usleep_kDisconnectWaitUs ;;
    if functions =? NONE GF then
      match callback with
      | None =>
          emit Unlock_mLockSetCurrentFunction ;;
          ret (fromServiceSpecificErrorWithMessage (-1) "callback == NULL")
      | Some c =>
          emit (setCurrentUsbFunctionsCb c functions SUCCESS
                  in_transactionId) ;;
          (if negb (setCurrentUsbFunctionsCb_ok env)
           then emit (ALOGE "Error while calling setCurrentUsbFunctionsCb %s")
           else ret tt) ;;
          emit Unlock_mLockSetCurrentFunction ;;
          ret (fromServiceSpecificErrorWithMessage (-1)
                 "Error while calling setCurrentUsbFunctionsCb")
      end
    else
      status <- validateAndSetVidPid (to_uint64 functions) env ;;
      if negb (Status_eqb status SUCCESS) then
        setCurrentUsbFunctions_error functions callback in_transactionId
          status env
      else
        status <- setupFunctions functions callback (to_uint64 timeoutMs)
                    in_transactionId env ;;
        if negb (Status_eqb status SUCCESS) then
          setCurrentUsbFunctions_error functions callback in_transactionId
            status env
        else
          emit (ALOGI "Usb Gadget setcurrent functions called successfully") ;;
          emit Unlock_mLockSetCurrentFunction ;;
          ret (fromServiceSpecificErrorWithMessage (-1)
                 "Usb Gadget setcurrent functions called successfully").
End WithLibraries.

(** ** Observations on traces *)

(** The completions sent for [setCurrentUsbFunctions], in order. *)
Fixpoint set_completions (tr : Trace) : list (CallbackRef * Z * Status * Z) :=
  match tr with
  | [] => []
  | setCurrentUsbFunctionsCb c f st tid :: rest =>
      (c, f, st, tid) :: set_completions rest
  | _ :: rest => set_completions rest
  end.

(** The completions sent for [reset], in order. *)
Fixpoint reset_completions (tr : Trace) : list (CallbackRef * Status * Z) :=
  match tr with
  | [] => []
  | resetCb c st tid :: rest => (c, st, tid) :: reset_completions rest
  | _ :: rest => reset_completions rest
  end.

(** What is written to the pull-up file, with the outcome, in order. *)
Fixpoint pullup_writes (tr : Trace) : list (string * bool) :=
  match tr with
  | [] => []
  | WriteStringToFile content PULLUP_PATH written :: rest =>
      (content, written) :: pullup_writes rest
  | _ :: rest => pullup_writes rest
  end.

(** Whether the trace does anything to configure or raise the gadget. *)
Fixpoint configures_gadget (tr : Trace) : bool :=
  match tr with
  | [] => false
  | setVidPid _ _ _ :: _ => true
  | addGenericAndroidFunctions _ _ _ :: _ => true
  | addAdb _ :: _ => true
  | WriteStringToFile _ _ _ :: _ => true
  | monitorFfs_startMonitor :: _ => true
  | monitorFfs_registerFunctionsAppliedCallback :: _ => true
  | _ :: rest => configures_gadget rest
  end.

(** The operations on the request mutex, in order. *)
Fixpoint lock_events (tr : Trace) : list Event :=
  match tr with
  | [] => []
  | Lock_mLockSetCurrentFunction :: rest =>
      Lock_mLockSetCurrentFunction :: lock_events rest
  | Unlock_mLockSetCurrentFunction :: rest =>
      Unlock_mLockSetCurrentFunction :: lock_events rest
  | _ :: rest => lock_events rest
  end.

Definition starts_monitor (tr : Trace) : bool :=
  existsb (fun e => match e with monitorFfs_startMonitor => true | _ => false end)
    tr.

(** The constants of [GadgetFunction] in the AIDL interface, used here as
    sample values. *)
Definition sample_functions : GadgetFunction :=
  {| NONE := 0; ADB := 1; ACCESSORY := 2; MTP := 4; MIDI := 8; PTP := 16;
     RNDIS := 32; AUDIO_SOURCE := 64; NCM := 1024 |}.

Definition sample_env : SetEnv :=
  {| resetGadget_result := SUCCESS; isMonitorRunning := false;
     setVidPid_result := SUCCESS;
     addGenericAndroidFunctions_result := SUCCESS;
     addGenericAndroidFunctions_ffsEnabled := false;
     addAdb_result := SUCCESS; gadget_pulled_up := true;
     monitor_applied_reports := [true]; waitForPullUp_result := true;
     setCurrentUsbFunctionsCb_ok := true |}.

Definition sample_gadget : UsbGadget :=
  {| mCurrentUsbFunctions := 0; mCurrentUsbFunctionsApplied := false;
     mUsbSpeed := UNKNOWN |}.

End Usb.

(** ** Proof support *)

Ltac destruct_hci s :=
  let st := fresh "st" in
  let cb := fresh "cb" in
  let fd := fresh "fd" in
  let mg := fresh "mg" in
  let h4 := fresh "h4" in
  let w := fresh "w" in
  let dcb := fresh "dcb" in
  let hd := fresh "hd" in
  destruct s as [st cb fd mg h4 w [dcb hd]].

Ltac invert_outcome H :=
  cbv in H; first [ discriminate H | injection H as; subst ].

Ltac break_invariant H :=
  unfold session_invariant, device_open in H; cbn in H;
  let Hst := fresh "Hst" in
  let Hh4 := fresh "Hh4" in
  let Hdev := fresh "Hdev" in
  let Hcb := fresh "Hcb" in
  let Hw := fresh "Hw" in
  destruct H as (Hst & Hh4 & Hdev & Hcb & Hw).

Lemma bind_Ret {A B} (m : M A) (f : A -> M B) s b s2 tr :
  bind m f s = Ret b s2 tr ->
  exists a s1 tr1 tr2,
    m s = Ret a s1 tr1 /\ f a s1 = Ret b s2 tr2 /\ tr = tr1 ++ tr2.
Proof.
  unfold bind. destruct (m s) as [a s1 tr1 | why tr1]; [ | discriminate ].
  destruct (f a s1) as [b' s2' tr2 | why tr2] eqn:Hf; [ | discriminate ].
  intros H. injection H as -> -> <-. now exists a, s1, tr1, tr2.
Qed.

Lemma new_invariant : session_invariant BluetoothHci_new.
Proof.
  unfold session_invariant; cbn.
  repeat split; intros; try congruence; auto.
Qed.

(** [close] from a quiescent state: leaves Idle alone, tears Active down. *)
Lemma close_quiescent s :
  session_invariant s ->
  (mState s = READY /\
   close s = Ret ok s
     [ALOG INFO "close"; Lock mStateMutex; ALOG INFO "Already closed";
      Unlock mStateMutex]) \/
  (mState s = ONE_CLIENT /\
   exists m, management_ s = Some m /\ 0 <= bt_fd_ m /\
   close s =
     Ret ok
       (set_mH4 None
          (set_mState READY
             (set_management_ (Some {| bt_fd_ := -1 |})
                (set_mFdWatcher None (set_mState CLOSING s)))))
       [ALOG INFO "close"; Lock mStateMutex; Unlock mStateMutex;
        StopWatching; CloseHci (bt_fd_ m); Lock mStateMutex;
        Unlock mStateMutex]).
Proof.
  intros Hinv. destruct_hci s. break_invariant Hinv.
  destruct Hst as [-> | ->].
  - left. split; reflexivity.
  - right. split; [ reflexivity | ].
    destruct mg as [m | ].
    + exists m. repeat split.
      apply Z.leb_le. now apply Hdev.
    + assert (false = true) by now apply Hdev. discriminate.
Qed.

Lemma close_preserves s a s' tr :
  session_invariant s -> close s = Ret a s' tr ->
  session_invariant s' /\ mState s' = READY.
Proof.
  intros Hinv Hc.
  destruct (close_quiescent s Hinv) as [(Hst & Heq) | (Hst & m & Hm & Hfd & Heq)];
    rewrite Heq in Hc; injection Hc as <- <- <-.
  - split; assumption.
  - split; [ | reflexivity ].
    unfold session_invariant, device_open; cbn.
    repeat split; intros; try congruence; auto; discriminate.
Qed.

(** [initialize] reaches Active only from Idle, through a descriptor that
    [openHci] opened during this very call. *)
Lemma initialize_enters_active cb env s a s' tr :
  initialize cb env s = Ret a s' tr ->
  mState s <> ONE_CLIENT -> mState s' = ONE_CLIENT ->
  mState s = READY /\
  0 <= openHci_result env /\
  In (OpenHci (openHci_result env)) tr /\
  management_ s' = Some {| bt_fd_ := openHci_result env |} /\
  mH4 s' = Some {| h4_fd := openHci_result env |}.
Proof.
  intros H Hfrom Hto.
  destruct_hci s. destruct env as [ofd lk okc]. cbn in Hfrom |- *.
  destruct cb as [c | ]; [ | invert_outcome H; contradiction ].
  destruct st; try contradiction;
    destruct mg as [m | ]; destruct ofd as [ | p | p];
    destruct lk, okc, hd; invert_outcome H;
    try discriminate Hto;
    (split; [ reflexivity | split; [ lia | split; [ | split; reflexivity ] ] ]);
    cbn; tauto.
Qed.

Ltac solve_invariant :=
  unfold session_invariant, device_open; cbn;
  repeat split; intros; try congruence; auto; try discriminate;
  try (intuition congruence).

Lemma initialize_preserves cb env s a s' tr :
  session_invariant s -> initialize cb env s = Ret a s' tr ->
  session_invariant s'.
Proof.
  intros Hinv H.
  destruct cb as [c | ]; [ | invert_outcome H; assumption ].
  destruct_hci s. destruct env as [ofd lk okc]. break_invariant Hinv.
  destruct Hst as [-> | ->].
  - destruct mg as [m | ]; destruct ofd as [ | p | p];
      destruct lk, okc, hd; invert_outcome H; solve_invariant.
  - destruct mg as [m | ];
      [ | assert (false = true) by (now apply Hdev); discriminate ].
    invert_outcome H. solve_invariant.
Qed.

Lemma send_keeps_state type v s a s' tr :
  send type v s = Ret a s' tr -> s' = s.
Proof.
  intros H. destruct_hci s.
  destruct v; destruct h4; invert_outcome H; reflexivity.
Qed.

Lemma serviceDied_preserves alive s a s' tr :
  session_invariant s -> serviceDied alive s = Ret a s' tr ->
  session_invariant s'.
Proof.
  intros Hinv H.
  destruct_hci s. break_invariant Hinv.
  destruct Hst as [-> | ->].
  - destruct dcb, alive; invert_outcome H; solve_invariant.
  - destruct mg as [m | ];
      [ | assert (false = true) by (now apply Hdev); discriminate ].
    destruct dcb, alive; invert_outcome H; solve_invariant.
Qed.

Lemma OnPacketReady_keeps_state f s a s' tr :
  OnPacketReady f s = Ret a s' tr -> s' = s.
Proof.
  intros H. destruct f as [[] p]; destruct_hci s; destruct cb;
    invert_outcome H; reflexivity.
Qed.

Lemma OnPacketsReady_keeps_state frames :
  forall s a s' tr, OnPacketsReady frames s = Ret a s' tr -> s' = s.
Proof.
  induction frames as [ | f rest IH]; intros s a s' tr H.
  - invert_outcome H. reflexivity.
  - cbn [OnPacketsReady] in H.
    apply bind_Ret in H as (u & s1 & tr1 & tr2 & Hf & Hrest & _).
    apply OnPacketReady_keeps_state in Hf. apply IH in Hrest. congruence.
Qed.

Lemma OnDataReady_preserves r s a s' tr :
  session_invariant s -> OnDataReady r s = Ret a s' tr ->
  session_invariant s'.
Proof.
  intros Hinv H. unfold OnDataReady in H.
  apply bind_Ret in H as (h & s1 & tr1 & tr2 & Hg & Hk & _).
  injection Hg as <- <- <-.
  destruct (mH4 s) as [h | ]; [ | discriminate ].
  destruct r as [frames | ].
  - apply OnPacketsReady_keeps_state in Hk. now subst.
  - destruct_hci s. break_invariant Hinv.
    invert_outcome Hk. solve_invariant.
Qed.

Lemma step_preserves o s a s' tr :
  session_invariant s -> step o s = Ret a s' tr -> session_invariant s'.
Proof.
  intros Hinv H. destruct o as [cb env | | type v | alive | r]; cbn [step] in H.
  - apply bind_Ret in H as (x & s1 & tr1 & tr2 & Hop & Hk & _).
    injection Hk as <- <- <-. eauto using initialize_preserves.
  - apply bind_Ret in H as (x & s1 & tr1 & tr2 & Hop & Hk & _).
    injection Hk as <- <- <-. eapply close_preserves; eauto.
  - apply bind_Ret in H as (x & s1 & tr1 & tr2 & Hop & Hk & _).
    injection Hk as <- <- <-. apply send_keeps_state in Hop. now subst.
  - eauto using serviceDied_preserves.
  - apply bind_Ret in H as (x & s1 & tr1 & tr2 & Hg & Hk & _).
    injection Hg as <- <- <-.
    destruct (mFdWatcher s).
    + eauto using OnDataReady_preserves.
    + injection Hk as <- <- <-. assumption.
Qed.

Lemma run_preserves ops :
  forall s a s' tr,
    session_invariant s -> run ops s = Ret a s' tr -> session_invariant s'.
Proof.
  induction ops as [ | o rest IH]; intros s a s' tr Hinv H.
  - injection H as <- <- <-. assumption.
  - cbn [run] in H.
    apply bind_Ret in H as (u & s1 & tr1 & tr2 & Hstep & Hrest & _).
    eauto using step_preserves.
Qed.

Lemma reachable_invariant s : reachable s -> session_invariant s.
Proof.
  intros (ops & tr & H). eauto using run_preserves, new_invariant.
Qed.

Lemma active_session_reachable :
  run [OpInitialize (Some client) env_device_ok] BluetoothHci_new =
  Ret tt active_session
    [ALOG INFO "initialize"; Lock mStateMutex; Unlock mStateMutex;
     OpenHci 7; AIBinder_DeathRecipient_new; AIBinder_linkToDeath client;
     WatchFd 7; Lock mStateMutex; Unlock mStateMutex;
     ALOG INFO "initialization complete";
     initializationComplete client SUCCESS].
Proof. reflexivity. Qed.

(** * The claims *)

(** C3. A [close] that does not find the session Active: in READY or CLOSING
    it logs, returns [ok] and leaves every field as it was; in INITIALIZING
    it terminates the process through [LOG_ALWAYS_FATAL_IF], with the state
    mutex still held and nothing returned. *)
Theorem close_when_not_active (s : BluetoothHci) :
  mState s <> ONE_CLIENT ->
  close s =
    match mState s with
    | INITIALIZING =>
        Stop (Fatal "mState is INITIALIZING")
          [ALOG INFO "close"; Lock mStateMutex]
    | _ =>
        Ret ok s
          [ALOG INFO "close"; Lock mStateMutex; ALOG INFO "Already closed";
           Unlock mStateMutex]
    end.
Proof.
  intros Hst. destruct_hci s. cbn in Hst |- *.
  destruct st; [ reflexivity | reflexivity | contradiction | reflexivity ].
Qed.

Lemma close_when_not_active_witness :
  close mid_initialize =
    Stop (Fatal "mState is INITIALIZING") [ALOG INFO "close"; Lock mStateMutex]
  /\ close BluetoothHci_new =
    Ret ok BluetoothHci_new
      [ALOG INFO "close"; Lock mStateMutex; ALOG INFO "Already closed";
       Unlock mStateMutex].
Proof.
  split.
  - apply (close_when_not_active mid_initialize). discriminate.
  - apply (close_when_not_active BluetoothHci_new). discriminate.
Defined.

(** C4. In every state and for every packet kind, [send] of an empty payload
    returns [EX_ILLEGAL_ARGUMENT], writes nothing to the device and leaves
    every field as it was; so do the four entry points, which only fix the
    kind. *)
Theorem send_empty_payload (s : BluetoothHci) (type : PacketType) :
  send type [] s =
    Ret (fromExceptionCode EX_ILLEGAL_ARGUMENT) s
      [ALOG ERROR "Packet is empty, no data was found to be sent"]
  /\ writes (trace_of (send type [] s)) = []
  /\ sendHciCommand [] s = send COMMAND [] s
  /\ sendAclData [] s = send ACL_DATA [] s
  /\ sendScoData [] s = send SCO_DATA [] s
  /\ sendIsoData [] s = send ISO_DATA [] s.
Proof. repeat split. Qed.

(** C5. [send] of a non-empty payload while no session is Active, that is
    while the codec pointer [mH4] is null, which between complete calls is
    the case exactly when [mState] is not ONE_CLIENT: it returns
    [EX_ILLEGAL_STATE], writes nothing to the device and changes no field. *)
Theorem send_when_not_active (s : BluetoothHci) (type : PacketType) (v : Packet) :
  v <> [] ->
  mH4 s = None \/ (reachable s /\ mState s <> ONE_CLIENT) ->
  send type v s =
    Ret (fromExceptionCode EX_ILLEGAL_STATE) s
      [Lock mStateMutex; Unlock mStateMutex]
  /\ writes (trace_of (send type v s)) = [].
Proof.
  intros Hv Hidle.
  assert (Hnull : mH4 s = None).
  { destruct Hidle as [H | (Hr & Hst)]; [ exact H | ].
    apply reachable_invariant in Hr.
    destruct Hr as (_ & Hh4 & _).
    destruct (mH4 s) as [h | ] eqn:E; [ | reflexivity ].
    exfalso. apply Hst, Hh4. discriminate. }
  destruct v as [ | b v]; [ contradiction | ].
  unfold send, bind, gets, lock_guard, unlock, emit, ret, trace_of; cbn.
  rewrite Hnull. split; reflexivity.
Qed.

Lemma send_when_not_active_witness :
  send ACL_DATA [Byte.x61] BluetoothHci_new =
    Ret (fromExceptionCode EX_ILLEGAL_STATE) BluetoothHci_new
      [Lock mStateMutex; Unlock mStateMutex]
  /\ writes (trace_of (send ACL_DATA [Byte.x61] BluetoothHci_new)) = [].
Proof.
  apply (send_when_not_active BluetoothHci_new ACL_DATA [Byte.x61]).
  - discriminate.
  - right. split.
    + exists [], []. reflexivity.
    + discriminate.
Defined.

(** C6. [initialize] from READY with a callback, when [openHci] answers a
    negative descriptor: the management object is dropped, the state is set
    back to READY, UNABLE_TO_OPEN_INTERFACE is reported through
    [initializationComplete], and the call returns [ok]; the process goes on,
    with no device held, no codec and no link to the client's death. *)
Theorem initialize_device_unavailable
  (s : BluetoothHci) (c : CallbackRef) (env : InitEnv) :
  mState s = READY ->
  openHci_result env < 0 ->
  exists s' tr,
    initialize (Some c) env s = Ret ok s' tr /\
    mState s' = READY /\
    device_open s' = false /\
    mH4 s' = mH4 s /\
    (exists before,
       tr = before ++
            [OpenHci (openHci_result env); DtorClose (-1);
             ALOG INFO "Unable to open Linux interface.";
             initializationComplete c UNABLE_TO_OPEN_INTERFACE]) /\
    link_count tr = 0%nat /\
    ~ In (initializationComplete c SUCCESS) tr.
Proof.
  intros Hst Hfd. destruct_hci s. destruct env as [ofd lk okc].
  cbn in Hst, Hfd |- *. subst st.
  destruct ofd as [ | p | p]; try lia.
  destruct mg as [m | ]; eexists; eexists;
    (split; [ reflexivity | ]);
    (split; [ reflexivity | ]);
    (split; [ reflexivity | ]);
    (split; [ reflexivity | ]).
  - split; [ | split ].
    + exists [ALOG INFO "initialize"; Lock mStateMutex; Unlock mStateMutex;
              DtorClose (bt_fd_ m)].
      reflexivity.
    + reflexivity.
    + cbn. intuition discriminate.
  - split; [ | split ].
    + exists [ALOG INFO "initialize"; Lock mStateMutex; Unlock mStateMutex].
      reflexivity.
    + reflexivity.
    + cbn. intuition discriminate.
Qed.

Lemma initialize_device_unavailable_witness :
  exists s' tr,
    initialize (Some client) env_no_device BluetoothHci_new = Ret ok s' tr /\
    mState s' = READY /\
    device_open s' = false /\
    mH4 s' = mH4 BluetoothHci_new /\
    (exists before,
       tr = before ++
            [OpenHci (openHci_result env_no_device); DtorClose (-1);
             ALOG INFO "Unable to open Linux interface.";
             initializationComplete client UNABLE_TO_OPEN_INTERFACE]) /\
    link_count tr = 0%nat /\
    ~ In (initializationComplete client SUCCESS) tr.
Proof.
  apply (initialize_device_unavailable BluetoothHci_new client env_no_device).
  - reflexivity.
  - reflexivity.
Defined.

(** C10, as stated, fails for a client that was never flagged dead when an
    earlier client of the same bridge died: [has_died_] is still set from
    that death, so the rejected SUCCESS notification of the new client is
    followed by the teardown and STATUS_FAILED_TRANSACTION, but by no log of
    the anomaly.  No death notification arrives after the second client
    registers. *)
Lemma anomaly_log_after_earlier_death_counterexample :
  exists s1 tr1 s2 tr2,
    run [OpInitialize (Some client) env_device_ok; OpOnDeath false]
      BluetoothHci_new = Ret tt s1 tr1 /\
    mState s1 = READY /\
    initialize (Some 2%nat) env_callback_rejected s1 =
      Ret (fromServiceSpecificError STATUS_FAILED_TRANSACTION) s2 tr2 /\
    In (AIBinder_linkToDeath 2%nat) tr2 /\
    In (initializationComplete 2%nat SUCCESS) tr2 /\
    ~ In (ALOG ERROR "Error sending init callback, but no death notification")
        tr2.
Proof.
  do 4 eexists.
  split; [ vm_compute; reflexivity | ].
  split; [ reflexivity | ].
  split; [ vm_compute; reflexivity | ].
  split; [ cbn; tauto | ].
  split; [ cbn; tauto | ].
  cbn. intros H. intuition discriminate.
Qed.

(** C10, amended. [initialize] from READY with a callback, the device opened
    and the link to the client's death made: when the SUCCESS notification is
    not delivered, [getHasDied] is read under its mutex, [close] is called and
    tears the session down (watcher stopped, descriptor closed, codec
    dropped, state READY), and the call returns STATUS_FAILED_TRANSACTION
    instead of [ok].  The anomaly is logged exactly when [has_died_] is
    false; the flag is that of the bridge's one death recipient, which the
    call does not change. *)
Theorem initialize_completion_not_delivered
  (s : BluetoothHci) (c : CallbackRef) (env : InitEnv) :
  mState s = READY ->
  0 <= openHci_result env ->
  linkToDeath_ok env = true ->
  initializationComplete_ok env = false ->
  exists s',
    initialize (Some c) env s =
      Ret (fromServiceSpecificError STATUS_FAILED_TRANSACTION) s'
        ([ALOG INFO "initialize"; Lock mStateMutex; Unlock mStateMutex] ++
         match management_ s with
         | Some m => [DtorClose (bt_fd_ m)]
         | None => []
         end ++
         [OpenHci (openHci_result env); AIBinder_DeathRecipient_new;
          AIBinder_linkToDeath c; WatchFd (openHci_result env);
          Lock mStateMutex; Unlock mStateMutex;
          ALOG INFO "initialization complete";
          initializationComplete c SUCCESS;
          Lock mHasDiedMutex; Unlock mHasDiedMutex] ++
         (if has_died_ (mDeathRecipient s) then []
          else [ALOG ERROR
                  "Error sending init callback, but no death notification"]) ++
         [ALOG INFO "close"; Lock mStateMutex; Unlock mStateMutex;
          StopWatching; CloseHci (openHci_result env);
          Lock mStateMutex; Unlock mStateMutex]) /\
    mState s' = READY /\
    mH4 s' = None /\
    mFdWatcher s' = None /\
    device_open s' = false /\
    has_died_ (mDeathRecipient s') = has_died_ (mDeathRecipient s).
Proof.
  intros Hst Hfd Hlk Hok. destruct_hci s. destruct env as [ofd lk okc].
  cbn in Hst, Hfd, Hlk, Hok |- *. subst st lk okc.
  destruct ofd as [ | p | p]; try lia;
    destruct mg as [m | ]; destruct hd; eexists;
    (split; [ vm_compute; reflexivity | repeat split ]).
Qed.

Lemma initialize_completion_not_delivered_witness :
  exists s',
    initialize (Some client) env_callback_rejected BluetoothHci_new =
      Ret (fromServiceSpecificError STATUS_FAILED_TRANSACTION) s'
        ([ALOG INFO "initialize"; Lock mStateMutex; Unlock mStateMutex] ++
         match management_ BluetoothHci_new with
         | Some m => [DtorClose (bt_fd_ m)]
         | None => []
         end ++
         [OpenHci (openHci_result env_callback_rejected);
          AIBinder_DeathRecipient_new;
          AIBinder_linkToDeath client;
          WatchFd (openHci_result env_callback_rejected);
          Lock mStateMutex; Unlock mStateMutex;
          ALOG INFO "initialization complete";
          initializationComplete client SUCCESS;
          Lock mHasDiedMutex; Unlock mHasDiedMutex] ++
         (if has_died_ (mDeathRecipient BluetoothHci_new) then []
          else [ALOG ERROR
                  "Error sending init callback, but no death notification"]) ++
         [ALOG INFO "close"; Lock mStateMutex; Unlock mStateMutex;
          StopWatching; CloseHci (openHci_result env_callback_rejected);
          Lock mStateMutex; Unlock mStateMutex]) /\
    mState s' = READY /\
    mH4 s' = None /\
    mFdWatcher s' = None /\
    device_open s' = false /\
    has_died_ (mDeathRecipient s') =
      has_died_ (mDeathRecipient BluetoothHci_new).
Proof.
  apply (initialize_completion_not_delivered
           BluetoothHci_new client env_callback_rejected).
  - reflexivity.
  - discriminate.
  - reflexivity.
  - reflexivity.
Defined.

(** C9. The death notification of the client of an Active session: the
    handler writes [has_died_] while holding [mHasDiedMutex] and no other
    mutex, releases it, and only then calls [close], which takes the state
    mutex and tears the session down to READY; nobody called [close] from
    outside. *)
Theorem client_death_closes_session (s : BluetoothHci) :
  reachable s ->
  mState s = ONE_CLIENT ->
  exists m s',
    management_ s = Some m /\
    OnDeath false s =
      Ret tt s'
        [ALOG ERROR "Bluetooth remote service has died";
         Lock mHasDiedMutex; SetHasDied; Unlock mHasDiedMutex;
         ALOG INFO "close"; Lock mStateMutex; Unlock mStateMutex;
         StopWatching; CloseHci (bt_fd_ m);
         Lock mStateMutex; Unlock mStateMutex] /\
    locks_held_at_SetHasDied [] (trace_of (OnDeath false s)) =
      Some [mHasDiedMutex] /\
    has_died_ (mDeathRecipient s') = true /\
    mState s' = READY /\
    mH4 s' = None /\
    mFdWatcher s' = None /\
    device_open s' = false.
Proof.
  intros Hr Hst. apply reachable_invariant in Hr.
  destruct_hci s. break_invariant Hr. cbn in Hst. subst st.
  destruct (Hcb eq_refl) as (Hcb1 & Hcb2). subst dcb.
  destruct cb as [c | ]; [ | contradiction ].
  destruct mg as [m | ];
    [ | assert (false = true) by (now apply Hdev); discriminate ].
  exists m. eexists. repeat split.
Qed.

Lemma client_death_closes_session_witness :
  exists m s',
    management_ active_session = Some m /\
    OnDeath false active_session =
      Ret tt s'
        [ALOG ERROR "Bluetooth remote service has died";
         Lock mHasDiedMutex; SetHasDied; Unlock mHasDiedMutex;
         ALOG INFO "close"; Lock mStateMutex; Unlock mStateMutex;
         StopWatching; CloseHci (bt_fd_ m);
         Lock mStateMutex; Unlock mStateMutex] /\
    locks_held_at_SetHasDied [] (trace_of (OnDeath false active_session)) =
      Some [mHasDiedMutex] /\
    has_died_ (mDeathRecipient s') = true /\
    mState s' = READY /\
    mH4 s' = None /\
    mFdWatcher s' = None /\
    device_open s' = false.
Proof.
  apply (client_death_closes_session active_session).
  - exists [OpInitialize (Some client) env_device_ok]. eexists.
    apply active_session_reachable.
  - reflexivity.
Defined.

(** C1. Between complete calls, whatever sequence of calls came before, the
    bridge is READY or ONE_CLIENT, and it holds an open descriptor, and a
    codec, exactly when it is ONE_CLIENT.  [initialize] moves into ONE_CLIENT
    only from READY and only with the descriptor [openHci] opened during that
    call, which the new codec is bound to; [close] leaves ONE_CLIENT only after
    stopping the watcher and closing that descriptor, and drops the codec as
    it sets the state to READY. *)
Theorem device_lifetime_is_active_interval
  (ops : list Op) (s : BluetoothHci) (tr : Trace) :
  run ops BluetoothHci_new = Ret tt s tr ->
  (mState s = READY \/ mState s = ONE_CLIENT) /\
  (device_open s = true <-> mState s = ONE_CLIENT) /\
  (mH4 s <> None <-> mState s = ONE_CLIENT) /\
  (forall cb env a s' tr',
      initialize cb env s = Ret a s' tr' ->
      mState s <> ONE_CLIENT -> mState s' = ONE_CLIENT ->
      0 <= openHci_result env /\
      In (OpenHci (openHci_result env)) tr' /\
      management_ s' = Some {| bt_fd_ := openHci_result env |} /\
      mH4 s' = Some {| h4_fd := openHci_result env |}) /\
  (mState s = ONE_CLIENT ->
   exists m s',
     management_ s = Some m /\ 0 <= bt_fd_ m /\
     close s =
       Ret ok s'
         [ALOG INFO "close"; Lock mStateMutex; Unlock mStateMutex;
          StopWatching; CloseHci (bt_fd_ m); Lock mStateMutex;
          Unlock mStateMutex] /\
     mState s' = READY /\ mH4 s' = None /\ device_open s' = false).
Proof.
  intros Hrun.
  assert (Hinv : session_invariant s)
    by (apply reachable_invariant; now exists ops, tr).
  pose proof Hinv as (Hst & Hh4 & Hdev & _).
  repeat (split; [ assumption | ]).
  split.
  - intros cb env a s' tr' Hinit Hfrom Hto.
    destruct (initialize_enters_active _ _ _ _ _ _ Hinit Hfrom Hto)
      as (_ & H1 & H2 & H3 & H4).
    auto.
  - intros Hact.
    destruct (close_quiescent s Hinv) as [(Hidle & _) | (_ & m & Hm & Hfd & Hc)];
      [ congruence | ].
    exists m. eexists. split; [ exact Hm | ]. split; [ exact Hfd | ].
    split; [ exact Hc | ]. repeat split.
Qed.

Lemma device_lifetime_is_active_interval_witness :
  (mState active_session = READY \/ mState active_session = ONE_CLIENT) /\
  (device_open active_session = true <-> mState active_session = ONE_CLIENT) /\
  (mH4 active_session <> None <-> mState active_session = ONE_CLIENT) /\
  (forall cb env a s' tr',
      initialize cb env active_session = Ret a s' tr' ->
      mState active_session <> ONE_CLIENT -> mState s' = ONE_CLIENT ->
      0 <= openHci_result env /\
      In (OpenHci (openHci_result env)) tr' /\
      management_ s' = Some {| bt_fd_ := openHci_result env |} /\
      mH4 s' = Some {| h4_fd := openHci_result env |}) /\
  (mState active_session = ONE_CLIENT ->
   exists m s',
     management_ active_session = Some m /\ 0 <= bt_fd_ m /\
     close active_session =
       Ret ok s'
         [ALOG INFO "close"; Lock mStateMutex; Unlock mStateMutex;
          StopWatching; CloseHci (bt_fd_ m); Lock mStateMutex;
          Unlock mStateMutex] /\
     mState s' = READY /\ mH4 s' = None /\ device_open s' = false).
Proof.
  exact (device_lifetime_is_active_interval
           [OpInitialize (Some client) env_device_ok] active_session _
           active_session_reachable).
Defined.

(** C2, as stated, fails while another [initialize] is in progress: the
    [close] it calls finds INITIALIZING and terminates the process, so
    ALREADY_INITIALIZED is never reported; and with a null callback the call
    returns STATUS_BAD_VALUE at once, without any [close]. *)
Lemma initialize_when_not_idle_counterexample :
  mState mid_initialize <> READY /\
  initialize (Some client) env_device_ok mid_initialize =
    Stop (Fatal "mState is INITIALIZING")
      [ALOG INFO "initialize"; Lock mStateMutex; Unlock mStateMutex;
       ALOG_state ERROR "initialize: Unexpected State %d" INITIALIZING;
       ALOG INFO "close"; Lock mStateMutex] /\
  ~ (exists a s' tr,
       initialize (Some client) env_device_ok mid_initialize = Ret a s' tr /\
       In (initializationComplete client ALREADY_INITIALIZED) tr) /\
  mState active_session <> READY /\
  initialize None env_device_ok active_session =
    Ret (fromServiceSpecificError STATUS_BAD_VALUE) active_session
      [ALOG INFO "initialize";
       ALOG ERROR "cb == nullptr! -> Unable to call initializationComplete(ERR)"].
Proof.
  split; [ discriminate | ].
  split; [ reflexivity | ].
  split; [ | split; [ discriminate | reflexivity ] ].
  intros (a & s' & tr & H & _). discriminate H.
Qed.

(** C2, amended. [initialize] with a callback while the state is ONE_CLIENT
    (the session holding its device) or CLOSING: it calls [close], which
    tears an Active session down and does nothing in CLOSING, then reports
    ALREADY_INITIALIZED through the caller's callback and returns [ok].  No
    device is opened and no death link is made, the caller's callback is not
    installed, and the state it leaves is not ONE_CLIENT. *)
Theorem initialize_when_active_or_closing
  (s : BluetoothHci) (c : CallbackRef) (env : InitEnv) :
  mState s = ONE_CLIENT \/ mState s = CLOSING ->
  (mState s = ONE_CLIENT -> device_open s = true) ->
  exists s' tr_close tr,
    close s = Ret ok s' tr_close /\
    tr = [ALOG INFO "initialize"; Lock mStateMutex; Unlock mStateMutex;
          ALOG_state ERROR "initialize: Unexpected State %d" (mState s)]
         ++ tr_close ++ [initializationComplete c ALREADY_INITIALIZED] /\
    initialize (Some c) env s = Ret ok s' tr /\
    mState s' <> ONE_CLIENT /\
    (mState s = ONE_CLIENT ->
     mState s' = READY /\ mH4 s' = None /\ device_open s' = false) /\
    (mState s = CLOSING -> s' = s) /\
    mCb s' = mCb s /\
    link_count tr = 0%nat /\
    (forall fd, ~ In (OpenHci fd) tr).
Proof.
  intros Hst Hdev. destruct_hci s. unfold device_open in Hdev.
  cbn in Hst, Hdev |- *.
  destruct Hst as [-> | ->].
  - destruct mg as [m | ];
      [ | specialize (Hdev eq_refl); discriminate ].
    do 3 eexists.
    split; [ reflexivity | ]. split; [ reflexivity | ].
    split; [ reflexivity | ].
    repeat split; try discriminate.
    cbn. intros fd' H. intuition discriminate.
  - do 3 eexists.
    split; [ reflexivity | ]. split; [ reflexivity | ].
    split; [ reflexivity | ].
    repeat split; try discriminate.
    cbn. intros fd' H. intuition discriminate.
Qed.

Lemma initialize_when_active_or_closing_witness :
  exists s' tr_close tr,
    close active_session = Ret ok s' tr_close /\
    tr = [ALOG INFO "initialize"; Lock mStateMutex; Unlock mStateMutex;
          ALOG_state ERROR "initialize: Unexpected State %d"
            (mState active_session)]
         ++ tr_close ++ [initializationComplete 2%nat ALREADY_INITIALIZED] /\
    initialize (Some 2%nat) env_device_ok active_session = Ret ok s' tr /\
    mState s' <> ONE_CLIENT /\
    (mState active_session = ONE_CLIENT ->
     mState s' = READY /\ mH4 s' = None /\ device_open s' = false) /\
    (mState active_session = CLOSING -> s' = active_session) /\
    mCb s' = mCb active_session /\
    link_count tr = 0%nat /\
    (forall fd, ~ In (OpenHci fd) tr).
Proof.
  apply (initialize_when_active_or_closing active_session 2%nat env_device_ok).
  - left. reflexivity.
  - intros _. reflexivity.
Defined.

(** *** No call ever releases the death link *)

Lemma unlink_count_app (a b : Trace) :
  unlink_count (a ++ b) = (unlink_count a + unlink_count b)%nat.
Proof.
  induction a as [ | e a IH]; [ reflexivity | ].
  destruct e; cbn; rewrite ?IH; reflexivity.
Qed.

Lemma no_unlink_bind {A B} (m : M A) (f : A -> M B) (s : BluetoothHci) :
  unlink_count (trace_of (m s)) = 0%nat ->
  (forall a s1, unlink_count (trace_of (f a s1)) = 0%nat) ->
  unlink_count (trace_of (bind m f s)) = 0%nat.
Proof.
  intros Hm Hf. unfold bind.
  destruct (m s) as [a s1 tr1 | why tr1]; [ | exact Hm ].
  specialize (Hf a s1).
  destruct (f a s1) as [b s2 tr2 | why tr2]; cbn in *;
    rewrite unlink_count_app, Hm, Hf; reflexivity.
Qed.

Lemma close_no_unlink s : unlink_count (trace_of (close s)) = 0%nat.
Proof. destruct_hci s. destruct st, mg; reflexivity. Qed.

Lemma initialize_no_unlink cb env s :
  unlink_count (trace_of (initialize cb env s)) = 0%nat.
Proof.
  destruct cb as [c | ]; [ | reflexivity ].
  destruct_hci s. destruct env as [ofd lk okc].
  destruct st, mg, ofd, lk, okc, hd; reflexivity.
Qed.

Lemma send_no_unlink type v s :
  unlink_count (trace_of (send type v s)) = 0%nat.
Proof. destruct_hci s. destruct v, h4; reflexivity. Qed.

Lemma serviceDied_no_unlink alive s :
  unlink_count (trace_of (serviceDied alive s)) = 0%nat.
Proof. destruct_hci s. destruct dcb, alive, st, mg; reflexivity. Qed.

Lemma OnPacketsReady_no_unlink frames :
  forall s, unlink_count (trace_of (OnPacketsReady frames s)) = 0%nat.
Proof.
  induction frames as [ | f rest IH]; intros s; [ reflexivity | ].
  cbn [OnPacketsReady]. apply no_unlink_bind; [ | intros _ s1; apply IH ].
  destruct f as [[] p]; destruct_hci s; destruct cb; reflexivity.
Qed.

Lemma OnDataReady_no_unlink r s :
  unlink_count (trace_of (OnDataReady r s)) = 0%nat.
Proof.
  unfold OnDataReady. apply no_unlink_bind; [ reflexivity | ].
  intros [h | ] s1; [ | reflexivity ].
  destruct r as [frames | ]; [ apply OnPacketsReady_no_unlink | reflexivity ].
Qed.

Lemma step_no_unlink o s : unlink_count (trace_of (step o s)) = 0%nat.
Proof.
  destruct o as [cb env | | type v | alive | r]; cbn [step].
  - apply no_unlink_bind; [ apply initialize_no_unlink | reflexivity ].
  - apply no_unlink_bind; [ apply close_no_unlink | reflexivity ].
  - apply no_unlink_bind; [ apply send_no_unlink | reflexivity ].
  - apply serviceDied_no_unlink.
  - apply no_unlink_bind; [ reflexivity | ].
    intros [fd | ] s1; [ apply OnDataReady_no_unlink | reflexivity ].
Qed.

Lemma run_no_unlink ops :
  forall s, unlink_count (trace_of (run ops s)) = 0%nat.
Proof.
  induction ops as [ | o rest IH]; intros s; [ reflexivity | ].
  cbn [run]. apply no_unlink_bind; [ apply step_no_unlink | intros _ s1; apply IH ].
Qed.

(** C8, as stated, fails on the teardown of the session one successful
    [initialize] creates: that call registers the death link once, and
    [close] returns without releasing it. *)
Lemma death_link_release_counterexample :
  initialize (Some client) env_device_ok BluetoothHci_new =
    Ret ok active_session
      [ALOG INFO "initialize"; Lock mStateMutex; Unlock mStateMutex;
       OpenHci 7; AIBinder_DeathRecipient_new; AIBinder_linkToDeath client;
       WatchFd 7; Lock mStateMutex; Unlock mStateMutex;
       ALOG INFO "initialization complete";
       initializationComplete client SUCCESS] /\
  ~ (exists s' tr,
       close active_session = Ret ok s' tr /\ unlink_count tr = 1%nat).
Proof.
  split; [ reflexivity | ].
  intros (s' & tr & Hc & Hn).
  injection Hc as <- <-. discriminate Hn.
Qed.

(** C8, amended. A session that becomes Active registers one death link for
    the caller's callback.  [UnlinkToDeath] only compares its argument with
    the registered callback: it terminates the process on a mismatch and does
    nothing on a match.  Neither [close] nor any other call releases the
    link, whatever the sequence of calls and wherever it starts; teardown
    leaves the registered callback in the death recipient, which [close]
    neither reads nor writes. *)
Theorem death_link_outlives_teardown :
  (forall s c env a s' tr,
      initialize (Some c) env s = Ret a s' tr ->
      mState s = READY -> 0 <= openHci_result env ->
      link_count tr = 1%nat /\ In (AIBinder_linkToDeath c) tr /\
      dr_mCb (mDeathRecipient s') = Some c) /\
  (forall cb s,
      UnlinkToDeath cb s =
        if Callbacks_eqb cb (dr_mCb (mDeathRecipient s))
        then Ret tt s []
        else Stop (Fatal "Unable to unlink mismatched pointers") []) /\
  (forall ops s, unlink_count (trace_of (run ops s)) = 0%nat) /\
  (forall s a s' tr,
      close s = Ret a s' tr ->
      unlink_count tr = 0%nat /\ mDeathRecipient s' = mDeathRecipient s) /\
  (forall s a s' tr dr,
      close s = Ret a s' tr ->
      close (set_mDeathRecipient dr s) = Ret a (set_mDeathRecipient dr s') tr).
Proof.
  split; [ | split; [ | split; [ | split ] ] ];
    [ | | | | intros s a s' tr dr H; destruct_hci s;
              destruct st, mg; invert_outcome H; reflexivity ].
  - intros s c env a s' tr H Hst Hfd.
    destruct_hci s. destruct env as [ofd lk okc]. cbn in Hst, Hfd. subst st.
    destruct ofd as [ | p | p]; try lia;
      destruct mg, lk, okc, hd; invert_outcome H; cbn; intuition.
  - intros cb s. destruct_hci s.
    unfold UnlinkToDeath, bind, gets, LOG_ALWAYS_FATAL_IF; cbn.
    destruct (Callbacks_eqb cb dcb); reflexivity.
  - intros ops s. apply run_no_unlink.
  - intros s a s' tr H. split.
    + pose proof (close_no_unlink s) as Hn. rewrite H in Hn. exact Hn.
    + destruct_hci s. destruct st, mg; invert_outcome H; reflexivity.
Qed.

Lemma death_link_outlives_teardown_witness :
  (link_count
     (trace_of (initialize (Some client) env_device_ok BluetoothHci_new))
   = 1%nat) /\
  UnlinkToDeath (Some 2%nat) active_session =
    Stop (Fatal "Unable to unlink mismatched pointers") [] /\
  UnlinkToDeath (Some client) active_session = Ret tt active_session [] /\
  unlink_count
    (trace_of (run [OpInitialize (Some client) env_device_ok; OpClose]
                 BluetoothHci_new)) = 0%nat.
Proof.
  destruct death_link_outlives_teardown as (Hlink & Hunlink & Hrun & _).
  split; [ | split; [ | split ] ].
  - refine (proj1 (Hlink BluetoothHci_new client env_device_ok ok
                     active_session
                     (trace_of (initialize (Some client) env_device_ok
                                  BluetoothHci_new)) _ _ _));
      [ reflexivity | reflexivity | discriminate ].
  - apply (Hunlink (Some 2%nat) active_session).
  - apply (Hunlink (Some client) active_session).
  - apply Hrun.
Defined.

(** *** Inbound frames *)

Lemma bind_ret_l {A B} (a : A) (f : A -> M B) s : bind (ret a) f s = f a s.
Proof. unfold bind, ret. destruct (f a s); reflexivity. Qed.

Lemma bind_assoc {A B C} (m : M A) (f : A -> M B) (g : B -> M C) s :
  bind (bind m f) g s = bind m (fun x => bind (f x) g) s.
Proof.
  unfold bind. destruct (m s) as [a s1 tr1 | ]; [ | reflexivity ].
  destruct (f a s1) as [b s2 tr2 | ]; [ | reflexivity ].
  destruct (g b s2); rewrite app_assoc; reflexivity.
Qed.

Lemma bind_ext {A B} (m : M A) (f g : A -> M B) s :
  (forall a s1, f a s1 = g a s1) -> bind m f s = bind m g s.
Proof.
  intros H. unfold bind. destruct (m s) as [a s1 tr1 | ]; [ | reflexivity ].
  now rewrite H.
Qed.

Lemma OnPacketsReady_app (a b : list Frame) :
  forall s,
    OnPacketsReady (a ++ b) s =
    bind (OnPacketsReady a) (fun _ => OnPacketsReady b) s.
Proof.
  induction a as [ | f a IH]; intros s.
  - cbn [app OnPacketsReady]. now rewrite bind_ret_l.
  - cbn [app OnPacketsReady]. rewrite bind_assoc.
    apply bind_ext. intros _ s1. apply IH.
Qed.

(** A frame that is not a Command goes to the client, as one call. *)
Lemma OnPacketReady_delivers (f : Frame) (s : BluetoothHci) (c : CallbackRef) :
  mCb s = Some c -> fst f <> COMMAND ->
  exists e, OnPacketReady f s = Ret tt s [e].
Proof.
  intros Hcb Hk. destruct f as [k p]. cbn in Hk.
  unfold OnPacketReady, acl_cb, sco_cb, event_cb, iso_cb, bind, gets, call_cb;
    cbn [fst snd].
  destruct k; try contradiction; rewrite Hcb; eexists; reflexivity.
Qed.

Lemma OnPacketsReady_command (frames : list Frame) :
  forall (s : BluetoothHci) (c : CallbackRef),
    mCb s = Some c ->
    (exists p, In (COMMAND, p) frames) ->
    exists pre p post tr,
      frames = pre ++ (COMMAND, p) :: post /\
      Forall (fun f => fst f <> COMMAND) pre /\
      OnPacketsReady frames s = Stop (Fatal "Unexpected command!") tr /\
      OnPacketsReady pre s = Ret tt s tr /\
      List.length tr = List.length pre.
Proof.
  induction frames as [ | f rest IH]; intros s c Hcb (p & Hin).
  - destruct Hin.
  - destruct f as [k q].
    assert (Hk : k = COMMAND \/ k <> COMMAND)
      by (destruct k; (now left) || (right; discriminate)).
    destruct Hk as [-> | Hk].
    + exists [], q, rest, []. repeat split. constructor.
    + destruct Hin as [Heq | Hin]; [ congruence | ].
      destruct (IH s c Hcb (ex_intro _ p Hin))
        as (pre & p' & post & tr & Hfr & Hpre & Hstop & Hret & Hlen).
      destruct (OnPacketReady_delivers (k, q) s c Hcb Hk) as (e & He).
      exists ((k, q) :: pre), p', post, (e :: tr).
      split; [ now rewrite Hfr | ].
      split; [ now constructor | ].
      cbn [OnPacketsReady]. unfold bind. rewrite He, Hstop, Hret.
      repeat split. cbn. now rewrite Hlen.
Qed.

Lemma OnDataReady_frames (frames : list Frame) (s : BluetoothHci) :
  mH4 s <> None ->
  OnDataReady (ReadFrames frames) s = OnPacketsReady frames s.
Proof.
  intros Hh4. unfold OnDataReady, bind, gets.
  destruct (mH4 s); [ | contradiction ].
  destruct (OnPacketsReady frames s); reflexivity.
Qed.

Section InboundCommand.
Variable Decoder : Type.
Variable h4_read : Decoder -> list Byte.byte -> Decoder * list Frame.

Lemma OnDataReady_stream_frames (chunks : list (list Byte.byte)) :
  forall (d : Decoder) (s : BluetoothHci),
    mH4 s <> None ->
    OnDataReady_stream Decoder h4_read d chunks s =
    OnPacketsReady (assembled Decoder h4_read d chunks) s.
Proof.
  induction chunks as [ | c rest IH]; intros d s Hh4; [ reflexivity | ].
  cbn [OnDataReady_stream assembled].
  destruct (h4_read d c) as [d' frames].
  rewrite OnPacketsReady_app. unfold bind.
  rewrite (OnDataReady_frames frames s Hh4).
  destruct (OnPacketsReady frames s) as [a s1 tr1 | ] eqn:E; [ | reflexivity ].
  apply OnPacketsReady_keeps_state in E. subst s1.
  now rewrite IH.
Qed.

(** C7. While a session is Active, whatever the decoder and however the
    inbound bytes are cut into reads: as soon as the frames the decoder
    completes include one of kind Command, the process terminates with
    "Unexpected command!".  Up to that point the client has received
    exactly the frames that came before the first Command frame, one call
    each; the Command frame and what follows it reach no callback. *)
Theorem inbound_command_is_fatal
  (d : Decoder) (chunks : list (list Byte.byte)) (s : BluetoothHci) :
  reachable s ->
  mState s = ONE_CLIENT ->
  (exists p, In (COMMAND, p) (assembled Decoder h4_read d chunks)) ->
  exists pre p post tr,
    assembled Decoder h4_read d chunks = pre ++ (COMMAND, p) :: post /\
    Forall (fun f => fst f <> COMMAND) pre /\
    OnDataReady_stream Decoder h4_read d chunks s =
      Stop (Fatal "Unexpected command!") tr /\
    OnPacketsReady pre s = Ret tt s tr /\
    List.length tr = List.length pre.
Proof.
  intros Hr Hst Hcmd. apply reachable_invariant in Hr.
  destruct Hr as (_ & Hh4 & _ & Hcb & _).
  destruct (Hcb Hst) as (Hcb1 & _).
  destruct (mCb s) as [c | ] eqn:Ec; [ | contradiction ].
  rewrite OnDataReady_stream_frames by (apply Hh4; exact Hst).
  exact (OnPacketsReady_command _ s c Ec Hcmd).
Qed.
End InboundCommand.

Lemma inbound_command_is_fatal_witness :
  exists pre p post tr,
    assembled unit byte_frames tt [[Byte.x41; Byte.x42]; [Byte.x01; Byte.x43]]
      = pre ++ (COMMAND, p) :: post /\
    Forall (fun f => fst f <> COMMAND) pre /\
    OnDataReady_stream unit byte_frames tt
      [[Byte.x41; Byte.x42]; [Byte.x01; Byte.x43]] active_session =
      Stop (Fatal "Unexpected command!") tr /\
    OnPacketsReady pre active_session = Ret tt active_session tr /\
    List.length tr = List.length pre.
Proof.
  apply (inbound_command_is_fatal unit byte_frames tt
           [[Byte.x41; Byte.x42]; [Byte.x01; Byte.x43]] active_session).
  - exists [OpInitialize (Some client) env_device_ok]. eexists.
    apply active_session_reachable.
  - reflexivity.
  - exists [Byte.x01]. cbn. tauto.
Defined.

Example stream_with_command_run :
  OnDataReady_stream unit byte_frames tt
    [[Byte.x41; Byte.x42]; [Byte.x01; Byte.x43]] active_session =
  Stop (Fatal "Unexpected command!")
    [hciEventReceived client [Byte.x41]; hciEventReceived client [Byte.x42]].
Proof. reflexivity. Qed.

(** * Further properties of the Bluetooth bridge *)

(** A property every single call keeps is kept by every sequence of calls. *)
Lemma run_keeps (P : BluetoothHci -> Prop) :
  (forall o s a s' tr, P s -> step o s = Ret a s' tr -> P s') ->
  forall ops s a s' tr, P s -> run ops s = Ret a s' tr -> P s'.
Proof.
  intros Hstep. induction ops as [ | o rest IH]; intros s a s' tr HP H.
  - injection H as <- <- <-. assumption.
  - cbn [run] in H.
    apply bind_Ret in H as (u & s1 & tr1 & tr2 & H1 & Hrest & _).
    eauto.
Qed.

(** X1. An [initialize] with a callback that returns has notified that
    callback exactly once, whatever state it found: ALREADY_INITIALIZED when
    the state was not READY, UNABLE_TO_OPEN_INTERFACE when it was and
    [openHci] failed, SUCCESS when it was and [openHci] succeeded.  The
    binder status returned is [ok] on all of these paths, failures included,
    except when the SUCCESS notification itself was rejected. *)
Theorem initialize_reports_exactly_once
  (s : BluetoothHci) (c : CallbackRef) (env : InitEnv)
  (a : ScopedAStatus) (s' : BluetoothHci) (tr : Trace) :
  initialize (Some c) env s = Ret a s' tr ->
  exists st,
    completions tr = [(c, st)] /\
    (st = ALREADY_INITIALIZED <-> mState s <> READY) /\
    (st = UNABLE_TO_OPEN_INTERFACE <->
     mState s = READY /\ openHci_result env < 0) /\
    (st = SUCCESS <-> mState s = READY /\ 0 <= openHci_result env) /\
    (a = ok <-> ~ (st = SUCCESS /\ initializationComplete_ok env = false)).
Proof.
  intros H. destruct_hci s. destruct env as [ofd lk okc].
  destruct st, mg, ofd, lk, okc, hd; invert_outcome H;
    eexists; (split; [ reflexivity | ]); cbn;
    repeat split; intros; try discriminate; try congruence; try lia;
    try (intuition (discriminate || congruence || lia)).
Qed.

Lemma initialize_reports_exactly_once_witness :
  exists st,
    completions
      (trace_of (initialize (Some client) env_no_device BluetoothHci_new))
      = [(client, st)] /\
    (st = ALREADY_INITIALIZED <-> mState BluetoothHci_new <> READY) /\
    (st = UNABLE_TO_OPEN_INTERFACE <->
     mState BluetoothHci_new = READY /\ openHci_result env_no_device < 0) /\
    (st = SUCCESS <->
     mState BluetoothHci_new = READY /\ 0 <= openHci_result env_no_device) /\
    (ok = ok <->
     ~ (st = SUCCESS /\ initializationComplete_ok env_no_device = false)).
Proof.
  exact (initialize_reports_exactly_once BluetoothHci_new client env_no_device
           ok _ _ eq_refl).
Defined.

(** *** The codec is bound to the open descriptor *)

Lemma step_keeps_bound o s a s' tr :
  bound_invariant s -> step o s = Ret a s' tr -> bound_invariant s'.
Proof.
  intros (Hinv & Hb) H.
  assert (Hinv' : session_invariant s') by eauto using step_preserves.
  split; [ exact Hinv' | ].
  destruct o as [cb env | | type v | alive | r]; cbn [step] in H.
  - apply bind_Ret in H as (x & s1 & tr1 & tr2 & Hop & Hk & _).
    injection Hk as <- <- <-.
    destruct cb as [c | ]; [ | invert_outcome Hop; assumption ].
    destruct_hci s. destruct env as [ofd lk okc]. break_invariant Hinv.
    destruct Hst as [-> | ->].
    + destruct mg as [m | ]; destruct ofd as [ | p | p];
        destruct lk, okc, hd; invert_outcome Hop;
        unfold codec_bound; cbn; intros ? Hh; try discriminate Hh;
        try (injection Hh as <-; cbn; right; repeat split; lia);
        exfalso; assert (READY = ONE_CLIENT) by (apply Hh4; congruence);
        discriminate.
    + destruct mg as [m | ];
        [ | assert (false = true) by (now apply Hdev); discriminate ].
      invert_outcome Hop. unfold codec_bound; cbn; intros ? Hh; discriminate.
  - apply bind_Ret in H as (x & s1 & tr1 & tr2 & Hop & Hk & _).
    injection Hk as <- <- <-.
    destruct (close_quiescent s Hinv) as [(_ & Hc) | (_ & m & _ & _ & Hc)];
      rewrite Hc in Hop; injection Hop as <- <- <-; [ assumption | ].
    unfold codec_bound; cbn; intros ? Hh; discriminate.
  - apply bind_Ret in H as (x & s1 & tr1 & tr2 & Hop & Hk & _).
    injection Hk as <- <- <-. apply send_keeps_state in Hop. now subst.
  - unfold OnDeath, serviceDied in H.
    apply bind_Ret in H as (x & s1 & tr1 & tr2 & Hg & Hk & _).
    injection Hg as <- <- <-.
    destruct (match dr_mCb (mDeathRecipient s) with
              | Some _ => negb alive | None => false end).
    + destruct_hci s. break_invariant Hinv.
      destruct Hst as [-> | ->].
      * invert_outcome Hk. unfold codec_bound in *; cbn in *. exact Hb.
      * destruct mg as [m | ];
          [ | assert (false = true) by (now apply Hdev); discriminate ].
        invert_outcome Hk. unfold codec_bound; cbn; intros ? Hh; discriminate.
    + invert_outcome Hk. assumption.
  - apply bind_Ret in H as (x & s1 & tr1 & tr2 & Hg & Hk & _).
    injection Hg as <- <- <-.
    destruct (mFdWatcher s) as [wfd | ];
      [ | injection Hk as <- <- <-; assumption ].
    unfold OnDataReady in Hk.
    apply bind_Ret in Hk as (h & s1 & tr1' & tr2' & Hg & Hk & _).
    injection Hg as <- <- <-.
    destruct (mH4 s) as [h | ] eqn:Eh; [ | discriminate ].
    destruct r as [frames | ].
    + apply OnPacketsReady_keeps_state in Hk. now subst.
    + invert_outcome Hk. unfold codec_bound in *; cbn in *.
      intros h' Hh'. left.
      destruct (Hb h' Hh') as [(H1 & H2 & H3 & _) | (H1 & H2 & H3 & _)];
        repeat split; assumption.
Qed.

Lemma reachable_bound s : reachable s -> bound_invariant s.
Proof.
  intros (ops & tr & H).
  refine (run_keeps bound_invariant step_keeps_bound ops _ _ _ _ _ H).
  split; [ apply new_invariant | intros h Hh; discriminate Hh ].
Qed.

(** X2. [initialize] from READY with a callback, when the device opens, the
    death link is made and the SUCCESS notification is accepted: it returns
    [ok] and leaves the session Active for this caller, with the management
    object, the codec and the watcher all on the descriptor [openHci]
    returned, the death recipient registered for the caller's callback, and
    [has_died_] as it was. *)
Theorem initialize_opens_session
  (s : BluetoothHci) (c : CallbackRef) (env : InitEnv) :
  mState s = READY ->
  0 <= openHci_result env ->
  linkToDeath_ok env = true ->
  initializationComplete_ok env = true ->
  exists before,
    initialize (Some c) env s =
      Ret ok
        {| mState := ONE_CLIENT; mCb := Some c; mFd := openHci_result env;
           management_ := Some {| bt_fd_ := openHci_result env |};
           mH4 := Some {| h4_fd := openHci_result env |};
           mFdWatcher := Some (openHci_result env);
           mDeathRecipient :=
             {| dr_mCb := Some c;
                has_died_ := has_died_ (mDeathRecipient s) |} |}
        (before ++
         [OpenHci (openHci_result env); AIBinder_DeathRecipient_new;
          AIBinder_linkToDeath c; WatchFd (openHci_result env);
          Lock mStateMutex; Unlock mStateMutex;
          ALOG INFO "initialization complete";
          initializationComplete c SUCCESS]) /\
    writes before = [] /\ completions before = [].
Proof.
  intros Hst Hfd Hlk Hok. destruct_hci s. destruct env as [ofd lk okc].
  cbn in Hst, Hfd, Hlk, Hok |- *. subst st lk okc.
  destruct ofd as [ | p | p]; try lia; destruct mg as [m | ];
    [ exists [ALOG INFO "initialize"; Lock mStateMutex; Unlock mStateMutex;
              DtorClose (bt_fd_ m)]
    | exists [ALOG INFO "initialize"; Lock mStateMutex; Unlock mStateMutex]
    | exists [ALOG INFO "initialize"; Lock mStateMutex; Unlock mStateMutex;
              DtorClose (bt_fd_ m)]
    | exists [ALOG INFO "initialize"; Lock mStateMutex; Unlock mStateMutex] ];
    repeat split.
Qed.

Lemma initialize_opens_session_witness :
  exists before,
    initialize (Some client) env_device_ok BluetoothHci_new =
      Ret ok
        {| mState := ONE_CLIENT; mCb := Some client;
           mFd := openHci_result env_device_ok;
           management_ := Some {| bt_fd_ := openHci_result env_device_ok |};
           mH4 := Some {| h4_fd := openHci_result env_device_ok |};
           mFdWatcher := Some (openHci_result env_device_ok);
           mDeathRecipient :=
             {| dr_mCb := Some client;
                has_died_ := has_died_ (mDeathRecipient BluetoothHci_new) |} |}
        (before ++
         [OpenHci (openHci_result env_device_ok); AIBinder_DeathRecipient_new;
          AIBinder_linkToDeath client; WatchFd (openHci_result env_device_ok);
          Lock mStateMutex; Unlock mStateMutex;
          ALOG INFO "initialization complete";
          initializationComplete client SUCCESS]) /\
    writes before = [] /\ completions before = [].
Proof.
  apply (initialize_opens_session BluetoothHci_new client env_device_ok).
  - reflexivity.
  - discriminate.
  - reflexivity.
  - reflexivity.
Defined.

(** X3. [initialize] from READY with a callback, when the device opens but
    [AIBinder_linkToDeath] does not answer STATUS_OK: the process terminates
    with "Unable to link to death recipient".  The descriptor has been opened
    by then; no codec or watcher was set up and the caller was notified of
    nothing. *)
Theorem initialize_link_failure_is_fatal
  (s : BluetoothHci) (c : CallbackRef) (env : InitEnv) :
  mState s = READY ->
  0 <= openHci_result env ->
  linkToDeath_ok env = false ->
  exists tr,
    initialize (Some c) env s =
      Stop (Fatal "Unable to link to death recipient") tr /\
    In (OpenHci (openHci_result env)) tr /\
    In (AIBinder_linkToDeath c) tr /\
    completions tr = [] /\
    (forall fd, ~ In (WatchFd fd) tr) /\
    (forall fd, ~ In (CloseHci fd) tr).
Proof.
  intros Hst Hfd Hlk. destruct_hci s. destruct env as [ofd lk okc].
  cbn in Hst, Hfd, Hlk |- *. subst st lk.
  destruct ofd as [ | p | p]; try lia; destruct mg as [m | ];
    eexists; (split; [ reflexivity | ]); cbn;
    repeat split; try tauto; intros fd' H; intuition discriminate.
Qed.

Lemma initialize_link_failure_is_fatal_witness :
  exists tr,
    initialize (Some client)
      {| openHci_result := 7; linkToDeath_ok := false;
         initializationComplete_ok := true |} BluetoothHci_new =
      Stop (Fatal "Unable to link to death recipient") tr /\
    In (OpenHci 7) tr /\
    In (AIBinder_linkToDeath client) tr /\
    completions tr = [] /\
    (forall fd, ~ In (WatchFd fd) tr) /\
    (forall fd, ~ In (CloseHci fd) tr).
Proof.
  apply (initialize_link_failure_is_fatal BluetoothHci_new client
           {| openHci_result := 7; linkToDeath_ok := false;
              initializationComplete_ok := true |}).
  - reflexivity.
  - discriminate.
  - reflexivity.
Defined.

(** X4. [send] of a non-empty payload while a session is Active, after any
    sequence of calls: it returns [ok], makes exactly one write, of the given
    kind and payload, on the descriptor that the session opened and still
    holds, under the state mutex, and changes no field. *)
Theorem send_while_active
  (s : BluetoothHci) (type : PacketType) (v : Packet) :
  reachable s ->
  mState s = ONE_CLIENT ->
  v <> [] ->
  exists fd,
    0 <= fd /\
    management_ s = Some {| bt_fd_ := fd |} /\
    send type v s =
      Ret ok s [Lock mStateMutex; H4Send fd type v; Unlock mStateMutex] /\
    writes (trace_of (send type v s)) = [(fd, type, v)].
Proof.
  intros Hr Hst Hv. apply reachable_bound in Hr. destruct Hr as (Hinv & Hb).
  destruct Hinv as (_ & Hh4 & _).
  destruct (mH4 s) as [h | ] eqn:Eh;
    [ | exfalso; apply (proj2 Hh4 Hst); reflexivity ].
  assert (Hm : management_ s = Some {| bt_fd_ := h4_fd h |} /\ 0 <= h4_fd h)
    by (destruct (Hb h Eh) as [(H1 & H2 & _) | (H1 & H2 & _)]; auto).
  destruct Hm as (Hm & Hfd).
  exists (h4_fd h). split; [ exact Hfd | ]. split; [ exact Hm | ].
  destruct v as [ | b v]; [ contradiction | ].
  unfold send, bind, gets, lock_guard, unlock, emit, ret, trace_of,
    H4Protocol_Send; cbn.
  rewrite Eh. cbn. split; reflexivity.
Qed.

Lemma send_while_active_witness :
  exists fd,
    0 <= fd /\
    management_ active_session = Some {| bt_fd_ := fd |} /\
    send ACL_DATA [Byte.x61] active_session =
      Ret ok active_session
        [Lock mStateMutex; H4Send fd ACL_DATA [Byte.x61]; Unlock mStateMutex] /\
    writes (trace_of (send ACL_DATA [Byte.x61] active_session)) =
      [(fd, ACL_DATA, [Byte.x61])].
Proof.
  apply (send_while_active active_session ACL_DATA [Byte.x61]).
  - exists [OpInitialize (Some client) env_device_ok]. eexists.
    apply active_session_reachable.
  - reflexivity.
  - discriminate.
Defined.

(** X5. A death notification does nothing but log when the registered client
    is still alive, or when no client was ever registered: no field changes,
    [has_died_] is not set and [close] is not called.  When the client is
    dead but the bridge is already READY, the notification still sets
    [has_died_]; the [close] it calls finds nothing to close. *)
Theorem death_notification_without_session (s : BluetoothHci) :
  (forall alive,
      alive = true \/ dr_mCb (mDeathRecipient s) = None ->
      OnDeath alive s =
        Ret tt s
          [ALOG ERROR
             "BluetoothDeathRecipient::serviceDied called but service not dead"])
  /\
  (mState s = READY -> dr_mCb (mDeathRecipient s) <> None ->
   OnDeath false s =
     Ret tt (set_has_died_ true s)
       [ALOG ERROR "Bluetooth remote service has died";
        Lock mHasDiedMutex; SetHasDied; Unlock mHasDiedMutex;
        ALOG INFO "close"; Lock mStateMutex; ALOG INFO "Already closed";
        Unlock mStateMutex]).
Proof.
  destruct_hci s. split.
  - intros alive [-> | Hnone].
    + destruct dcb; reflexivity.
    + cbn in Hnone. subst dcb. reflexivity.
  - cbn. intros -> Hcb. destruct dcb as [c | ]; [ reflexivity | contradiction ].
Qed.

Lemma death_notification_without_session_witness :
  OnDeath true active_session =
    Ret tt active_session
      [ALOG ERROR
         "BluetoothDeathRecipient::serviceDied called but service not dead"]
  /\
  OnDeath false (set_dr_mCb (Some client) BluetoothHci_new) =
    Ret tt (set_has_died_ true (set_dr_mCb (Some client) BluetoothHci_new))
      [ALOG ERROR "Bluetooth remote service has died";
       Lock mHasDiedMutex; SetHasDied; Unlock mHasDiedMutex;
       ALOG INFO "close"; Lock mStateMutex; ALOG INFO "Already closed";
       Unlock mStateMutex].
Proof.
  split.
  - apply (proj1 (death_notification_without_session active_session)).
    left. reflexivity.
  - apply (proj2 (death_notification_without_session
                    (set_dr_mCb (Some client) BluetoothHci_new))).
    + reflexivity.
    + discriminate.
Defined.

(** *** The has-died flag *)

Lemma step_has_died o s a s' tr :
  step o s = Ret a s' tr ->
  (has_died_ (mDeathRecipient s) = true ->
   has_died_ (mDeathRecipient s') = true) /\
  (is_death_notification o = false ->
   has_died_ (mDeathRecipient s') = has_died_ (mDeathRecipient s)).
Proof.
  intros H. destruct o as [cb env | | type v | alive | r]; cbn [step] in H.
  - apply bind_Ret in H as (x & s1 & tr1 & tr2 & Hop & Hk & _).
    injection Hk as <- <- <-.
    destruct cb as [c | ]; [ | invert_outcome Hop; auto ].
    destruct_hci s. destruct env as [ofd lk okc].
    destruct st, mg, ofd, lk, okc, hd; invert_outcome Hop; cbn; auto.
  - apply bind_Ret in H as (x & s1 & tr1 & tr2 & Hop & Hk & _).
    injection Hk as <- <- <-.
    destruct_hci s. destruct st, mg; invert_outcome Hop; cbn; auto.
  - apply bind_Ret in H as (x & s1 & tr1 & tr2 & Hop & Hk & _).
    injection Hk as <- <- <-. apply send_keeps_state in Hop. subst. auto.
  - split; [ | discriminate ].
    destruct_hci s. destruct dcb, alive, st, mg; invert_outcome H; cbn; auto.
  - apply bind_Ret in H as (x & s1 & tr1 & tr2 & Hg & Hk & _).
    injection Hg as <- <- <-.
    destruct (mFdWatcher s); [ | injection Hk as <- <- <-; auto ].
    unfold OnDataReady in Hk.
    apply bind_Ret in Hk as (h & s1 & tr1' & tr2' & Hg & Hk & _).
    injection Hg as <- <- <-.
    destruct (mH4 s); [ | discriminate ].
    destruct r as [frames | ].
    + apply OnPacketsReady_keeps_state in Hk. subst. auto.
    + invert_outcome Hk. auto.
Qed.

(** X6. [has_died_] is set by a death notification and by nothing else, and
    nothing ever clears it: once true it stays true through every later call,
    a new [initialize] for a new client included; and a sequence of calls
    without a death notification leaves it as it was. *)
Theorem has_died_is_never_cleared
  (ops : list Op) (s : BluetoothHci) (s' : BluetoothHci) (tr : Trace) :
  run ops s = Ret tt s' tr ->
  (has_died_ (mDeathRecipient s) = true ->
   has_died_ (mDeathRecipient s') = true) /\
  (forallb (fun o => negb (is_death_notification o)) ops = true ->
   has_died_ (mDeathRecipient s') = has_died_ (mDeathRecipient s)).
Proof.
  revert s s' tr. induction ops as [ | o rest IH]; intros s s' tr H.
  - injection H as <- <-. auto.
  - cbn [run] in H.
    apply bind_Ret in H as (u & s1 & tr1 & tr2 & Hstep & Hrest & _).
    destruct u.
    destruct (step_has_died _ _ _ _ _ Hstep) as (Hkeep & Hsame).
    destruct (IH _ _ _ Hrest) as (IHkeep & IHsame).
    split; [ auto | ].
    cbn [forallb]. intros Hall. apply andb_true_iff in Hall as (Ho & Hall).
    rewrite (IHsame Hall). apply Hsame.
    now destruct (is_death_notification o).
Qed.

Lemma has_died_is_never_cleared_witness :
  (has_died_ (mDeathRecipient (set_has_died_ true BluetoothHci_new)) = true ->
   has_died_
     (mDeathRecipient
        (set_has_died_ true
           (set_dr_mCb (Some 2%nat)
              (set_mCb (Some 2%nat) active_session)))) = true) /\
  (forallb (fun o => negb (is_death_notification o))
     [OpInitialize (Some 2%nat) env_device_ok] = true ->
   has_died_
     (mDeathRecipient
        (set_has_died_ true
           (set_dr_mCb (Some 2%nat)
              (set_mCb (Some 2%nat) active_session)))) =
   has_died_ (mDeathRecipient (set_has_died_ true BluetoothHci_new))).
Proof.
  apply (has_died_is_never_cleared
           [OpInitialize (Some 2%nat) env_device_ok]
           (set_has_died_ true BluetoothHci_new)
           (set_has_died_ true
              (set_dr_mCb (Some 2%nat)
                 (set_mCb (Some 2%nat) active_session)))
           (trace_of
              (run [OpInitialize (Some 2%nat) env_device_ok]
                 (set_has_died_ true BluetoothHci_new)))).
  vm_compute. reflexivity.
Defined.

(** X7. Because the flag is never cleared, a session opened after an earlier
    client died starts with it set: when that session's SUCCESS notification
    is rejected, [initialize] still tears the session down and returns
    STATUS_FAILED_TRANSACTION, but the anomaly is not logged. *)
Theorem initialize_rejected_after_earlier_death
  (s : BluetoothHci) (c : CallbackRef) (env : InitEnv) :
  mState s = READY ->
  0 <= openHci_result env ->
  linkToDeath_ok env = true ->
  initializationComplete_ok env = false ->
  has_died_ (mDeathRecipient s) = true ->
  exists s' before,
    initialize (Some c) env s =
      Ret (fromServiceSpecificError STATUS_FAILED_TRANSACTION) s'
        (before ++
         [initializationComplete c SUCCESS;
          Lock mHasDiedMutex; Unlock mHasDiedMutex;
          ALOG INFO "close"; Lock mStateMutex; Unlock mStateMutex;
          StopWatching; CloseHci (openHci_result env);
          Lock mStateMutex; Unlock mStateMutex]) /\
    (forall msg, ~ In (ALOG ERROR msg) before) /\
    mState s' = READY /\
    mH4 s' = None /\
    device_open s' = false.
Proof.
  intros Hst Hfd Hlk Hok Hhd. destruct_hci s. destruct env as [ofd lk okc].
  cbn in Hst, Hfd, Hlk, Hok, Hhd |- *. subst st lk okc hd.
  destruct ofd as [ | p | p]; try lia;
    destruct mg as [m | ]; eexists;
    [ exists [ALOG INFO "initialize"; Lock mStateMutex; Unlock mStateMutex;
              DtorClose (bt_fd_ m); OpenHci 0; AIBinder_DeathRecipient_new;
              AIBinder_linkToDeath c; WatchFd 0; Lock mStateMutex;
              Unlock mStateMutex; ALOG INFO "initialization complete"]
    | exists [ALOG INFO "initialize"; Lock mStateMutex; Unlock mStateMutex;
              OpenHci 0; AIBinder_DeathRecipient_new;
              AIBinder_linkToDeath c; WatchFd 0; Lock mStateMutex;
              Unlock mStateMutex; ALOG INFO "initialization complete"]
    | exists [ALOG INFO "initialize"; Lock mStateMutex; Unlock mStateMutex;
              DtorClose (bt_fd_ m); OpenHci (Z.pos p);
              AIBinder_DeathRecipient_new;
              AIBinder_linkToDeath c; WatchFd (Z.pos p); Lock mStateMutex;
              Unlock mStateMutex; ALOG INFO "initialization complete"]
    | exists [ALOG INFO "initialize"; Lock mStateMutex; Unlock mStateMutex;
              OpenHci (Z.pos p); AIBinder_DeathRecipient_new;
              AIBinder_linkToDeath c; WatchFd (Z.pos p); Lock mStateMutex;
              Unlock mStateMutex; ALOG INFO "initialization complete"] ];
    (split; [ vm_compute; reflexivity | ]);
    (split; [ cbn; intros msg H; intuition discriminate | ]);
    repeat split.
Qed.

Lemma initialize_rejected_after_earlier_death_witness :
  exists s' before,
    initialize (Some client) env_callback_rejected
      (set_has_died_ true BluetoothHci_new) =
      Ret (fromServiceSpecificError STATUS_FAILED_TRANSACTION) s'
        (before ++
         [initializationComplete client SUCCESS;
          Lock mHasDiedMutex; Unlock mHasDiedMutex;
          ALOG INFO "close"; Lock mStateMutex; Unlock mStateMutex;
          StopWatching; CloseHci (openHci_result env_callback_rejected);
          Lock mStateMutex; Unlock mStateMutex]) /\
    (forall msg, ~ In (ALOG ERROR msg) before) /\
    mState s' = READY /\
    mH4 s' = None /\
    device_open s' = false.
Proof.
  apply (initialize_rejected_after_earlier_death
           (set_has_died_ true BluetoothHci_new) client env_callback_rejected).
  - reflexivity.
  - discriminate.
  - reflexivity.
  - reflexivity.
  - reflexivity.
Defined.

(** *** Closing, reopening, losing the device *)

(** X8. Whatever state it is called in, a [close] that returns has returned
    [ok] and has left the bridge without a codec user: the state is not
    ONE_CLIENT afterwards, and calling [close] again at once changes nothing
    and only logs "Already closed". *)
Theorem close_is_idempotent
  (s : BluetoothHci) (a : ScopedAStatus) (s' : BluetoothHci) (tr : Trace) :
  close s = Ret a s' tr ->
  a = ok /\
  mState s' <> ONE_CLIENT /\
  mFdWatcher s' = (if HalState_eqb (mState s) ONE_CLIENT then None
                   else mFdWatcher s) /\
  close s' =
    Ret ok s'
      [ALOG INFO "close"; Lock mStateMutex; ALOG INFO "Already closed";
       Unlock mStateMutex].
Proof.
  intros H. destruct_hci s.
  destruct st, mg; invert_outcome H; repeat split; discriminate.
Qed.

Lemma close_is_idempotent_witness :
  ok = ok /\
  mState (set_mH4 None
            (set_mState READY
               (set_management_ (Some {| bt_fd_ := -1 |})
                  (set_mFdWatcher None active_session)))) <> ONE_CLIENT /\
  mFdWatcher (set_mH4 None
                (set_mState READY
                   (set_management_ (Some {| bt_fd_ := -1 |})
                      (set_mFdWatcher None active_session)))) =
    (if HalState_eqb (mState active_session) ONE_CLIENT then None
     else mFdWatcher active_session) /\
  close (set_mH4 None
           (set_mState READY
              (set_management_ (Some {| bt_fd_ := -1 |})
                 (set_mFdWatcher None active_session)))) =
    Ret ok
      (set_mH4 None
         (set_mState READY
            (set_management_ (Some {| bt_fd_ := -1 |})
               (set_mFdWatcher None active_session))))
      [ALOG INFO "close"; Lock mStateMutex; ALOG INFO "Already closed";
       Unlock mStateMutex].
Proof.
  apply (close_is_idempotent active_session ok _
           (trace_of (close active_session))).
  vm_compute. reflexivity.
Defined.

(** X9. A session can always be opened again: after any sequence of calls,
    [close] followed by [initialize] with a callback succeeds whenever the
    device opens, the death link is made and the notification is accepted.
    The new session belongs to the new caller: its callback replaces the old
    one in the bridge and in the death recipient, and codec and watcher sit
    on the newly opened descriptor. *)
Theorem session_can_be_reopened
  (s : BluetoothHci) (c : CallbackRef) (env : InitEnv) :
  reachable s ->
  0 <= openHci_result env ->
  linkToDeath_ok env = true ->
  initializationComplete_ok env = true ->
  exists tr,
    run [OpClose; OpInitialize (Some c) env] s =
      Ret tt
        {| mState := ONE_CLIENT; mCb := Some c; mFd := openHci_result env;
           management_ := Some {| bt_fd_ := openHci_result env |};
           mH4 := Some {| h4_fd := openHci_result env |};
           mFdWatcher := Some (openHci_result env);
           mDeathRecipient :=
             {| dr_mCb := Some c;
                has_died_ := has_died_ (mDeathRecipient s) |} |}
        tr /\
    completions tr = [(c, SUCCESS)].
Proof.
  intros Hr Hfd Hlk Hok. apply reachable_invariant in Hr.
  destruct_hci s. destruct env as [ofd lk okc]. break_invariant Hr.
  cbn in Hfd, Hlk, Hok |- *. subst lk okc.
  destruct Hst as [-> | ->].
  - destruct ofd as [ | p | p]; try lia; destruct mg as [m | ];
      eexists; split; vm_compute; reflexivity.
  - destruct mg as [m | ];
      [ | assert (false = true) by (now apply Hdev); discriminate ].
    destruct ofd as [ | p | p]; try lia;
      eexists; split; vm_compute; reflexivity.
Qed.

Lemma session_can_be_reopened_witness :
  exists tr,
    run [OpClose; OpInitialize (Some 2%nat) env_device_ok] active_session =
      Ret tt
        {| mState := ONE_CLIENT; mCb := Some 2%nat;
           mFd := openHci_result env_device_ok;
           management_ := Some {| bt_fd_ := openHci_result env_device_ok |};
           mH4 := Some {| h4_fd := openHci_result env_device_ok |};
           mFdWatcher := Some (openHci_result env_device_ok);
           mDeathRecipient :=
             {| dr_mCb := Some 2%nat;
                has_died_ := has_died_ (mDeathRecipient active_session) |} |}
        tr /\
    completions tr = [(2%nat, SUCCESS)].
Proof.
  apply (session_can_be_reopened active_session 2%nat env_device_ok).
  - exists [OpInitialize (Some client) env_device_ok]. eexists.
    apply active_session_reachable.
  - discriminate.
  - reflexivity.
  - reflexivity.
Defined.

(** X10. When the codec reports that the device is gone, the bridge only
    stops watching the descriptor: the session stays ONE_CLIENT with its
    codec and its open descriptor, nothing is reported to the client and
    [close] is not called.  From then on readiness events reach nobody, until
    somebody calls [close]. *)
Theorem disconnect_only_stops_watching (s : BluetoothHci) :
  reachable s ->
  mFdWatcher s <> None ->
  step (OpDataReady ReadEof) s =
    Ret tt (set_mFdWatcher None s)
      [ALOG INFO "HCI socket device disconnected"; StopWatching] /\
  mState (set_mFdWatcher None s) = ONE_CLIENT /\
  mH4 (set_mFdWatcher None s) = mH4 s /\
  mH4 s <> None /\
  device_open (set_mFdWatcher None s) = true /\
  (forall r,
      step (OpDataReady r) (set_mFdWatcher None s) =
        Ret tt (set_mFdWatcher None s) []).
Proof.
  intros Hr Hw. apply reachable_invariant in Hr.
  destruct_hci s. break_invariant Hr. cbn in Hw.
  assert (Hact : st = ONE_CLIENT) by (now apply Hw0).
  subst st.
  destruct h4 as [h | ]; [ | exfalso; now apply (proj2 Hh4 eq_refl) ].
  destruct w as [wfd | ]; [ | contradiction ].
  repeat split; try reflexivity.
  - discriminate.
  - unfold device_open. cbn. now apply Hdev.
Qed.

Lemma disconnect_only_stops_watching_witness :
  step (OpDataReady ReadEof) active_session =
    Ret tt (set_mFdWatcher None active_session)
      [ALOG INFO "HCI socket device disconnected"; StopWatching] /\
  mState (set_mFdWatcher None active_session) = ONE_CLIENT /\
  mH4 (set_mFdWatcher None active_session) = mH4 active_session /\
  mH4 active_session <> None /\
  device_open (set_mFdWatcher None active_session) = true /\
  (forall r,
      step (OpDataReady r) (set_mFdWatcher None active_session) =
        Ret tt (set_mFdWatcher None active_session) []).
Proof.
  apply (disconnect_only_stops_watching active_session).
  - exists [OpInitialize (Some client) env_device_ok]. eexists.
    apply active_session_reachable.
  - discriminate.
Defined.

(** *** Inbound frames reach the client in order *)

Lemma OnPacketReady_delivery (f : Frame) (s : BluetoothHci) (c : CallbackRef)
  (e : Event) :
  mCb s = Some c -> delivery c f = Some e ->
  OnPacketReady f s = Ret tt s [e].
Proof.
  intros Hcb He. destruct f as [k p].
  unfold OnPacketReady, acl_cb, sco_cb, event_cb, iso_cb, bind, gets, call_cb;
    unfold delivery in He; cbn [fst snd] in *.
  destruct k; try discriminate He; injection He as <-; rewrite Hcb;
    reflexivity.
Qed.

Lemma OnPacketsReady_delivers_all (frames : list Frame) :
  forall (s : BluetoothHci) (c : CallbackRef),
    mCb s = Some c ->
    Forall (fun f => fst f <> COMMAND) frames ->
    exists tr,
      OnPacketsReady frames s = Ret tt s tr /\
      map Some tr = map (delivery c) frames.
Proof.
  induction frames as [ | f rest IH]; intros s c Hcb Hall.
  - exists []. split; reflexivity.
  - inversion Hall as [ | f' rest' Hf Hrest]; subst.
    destruct (IH s c Hcb Hrest) as (tr & Hrun & Hmap).
    assert (He : exists e, delivery c f = Some e).
    { destruct f as [[] p]; cbn in Hf; try contradiction;
        eexists; reflexivity. }
    destruct He as (e & He).
    exists (e :: tr). split.
    + cbn [OnPacketsReady]. unfold bind.
      rewrite (OnPacketReady_delivery f s c e Hcb He), Hrun. reflexivity.
    + cbn [map]. now rewrite Hmap, He.
Qed.

Section InboundDelivery.
Variable Decoder : Type.
Variable h4_read : Decoder -> list Byte.byte -> Decoder * list Frame.

(** X11. While a session is Active, whatever the decoder and however the
    inbound bytes are cut into reads: when none of the frames completed is a
    Command frame, every frame is handed to the session's callback object,
    one call per frame, by the method of its kind, in the order the frames
    were completed, and no field of the bridge changes. *)
Theorem inbound_frames_delivered_in_order
  (d : Decoder) (chunks : list (list Byte.byte)) (s : BluetoothHci) :
  reachable s ->
  mState s = ONE_CLIENT ->
  Forall (fun f => fst f <> COMMAND) (assembled Decoder h4_read d chunks) ->
  exists c tr,
    mCb s = Some c /\
    OnDataReady_stream Decoder h4_read d chunks s = Ret tt s tr /\
    map Some tr = map (delivery c) (assembled Decoder h4_read d chunks).
Proof.
  intros Hr Hst Hall. apply reachable_invariant in Hr.
  destruct Hr as (_ & Hh4 & _ & Hcb & _).
  destruct (Hcb Hst) as (Hcb1 & _).
  destruct (mCb s) as [c | ] eqn:Ec; [ | contradiction ].
  destruct (OnPacketsReady_delivers_all _ s c Ec Hall) as (tr & Hrun & Hmap).
  exists c, tr. split; [ reflexivity | ].
  rewrite OnDataReady_stream_frames by (apply Hh4; exact Hst).
  split; assumption.
Qed.
End InboundDelivery.

Lemma inbound_frames_delivered_in_order_witness :
  exists c tr,
    mCb active_session = Some c /\
    OnDataReady_stream unit byte_frames tt
      [[Byte.x41]; [Byte.x42; Byte.x43]] active_session =
      Ret tt active_session tr /\
    map Some tr =
      map (delivery c)
        (assembled unit byte_frames tt [[Byte.x41]; [Byte.x42; Byte.x43]]).
Proof.
  apply (inbound_frames_delivered_in_order unit byte_frames tt
           [[Byte.x41]; [Byte.x42; Byte.x43]] active_session).
  - exists [OpInitialize (Some client) env_device_ok]. eexists.
    apply active_session_reachable.
  - reflexivity.
  - repeat constructor; discriminate.
Defined.

(** *** Mutex discipline *)

Lemma lock_discipline_app (t1 t2 : Trace) :
  forall h,
    lock_discipline h (t1 ++ t2) =
    match lock_discipline h t1 with
    | Some h' => lock_discipline h' t2
    | None => None
    end.
Proof.
  induction t1 as [ | e t1 IH]; intros h; [ reflexivity | ].
  destruct e; cbn [app lock_discipline]; try apply IH.
  - destruct h; [ reflexivity | apply IH ].
  - destruct h as [h | ]; [ | reflexivity ].
    destruct (Mutex_eqb h m); [ apply IH | reflexivity ].
Qed.

Lemma locks_ok_bind {A B} (m : M A) (f : A -> M B) (s : BluetoothHci) :
  locks_ok (m s) -> (forall a s1, locks_ok (f a s1)) ->
  locks_ok (bind m f s).
Proof.
  intros (h & Hm & Hret) Hf. unfold bind.
  destruct (m s) as [a s1 tr1 | why tr1]; cbn in *.
  - rewrite (Hret eq_refl) in Hm.
    destruct (Hf a s1) as (h2 & Hf2 & Hret2).
    destruct (f a s1) as [b s2 tr2 | why tr2];
      unfold locks_ok; cbn [trace_of terminated] in *;
      exists h2; rewrite lock_discipline_app, Hm; auto.
  - exists h. auto.
Qed.

Ltac solve_locks :=
  unfold locks_ok; vm_compute; eexists;
  (split; [ reflexivity | intros Hterm; first [ reflexivity | discriminate Hterm ] ]).

Lemma close_locks s : locks_ok (close s).
Proof. destruct_hci s. destruct st, mg; solve_locks. Qed.

Lemma initialize_locks cb env s : locks_ok (initialize cb env s).
Proof.
  destruct cb as [c | ]; [ | solve_locks ].
  destruct_hci s. destruct env as [ofd lk okc].
  destruct st, mg, ofd, lk, okc, hd; solve_locks.
Qed.

Lemma send_locks type v s : locks_ok (send type v s).
Proof. destruct_hci s. destruct v, h4; solve_locks. Qed.

Lemma serviceDied_locks alive s : locks_ok (serviceDied alive s).
Proof. destruct_hci s. destruct dcb, alive, st, mg; solve_locks. Qed.

Lemma OnPacketsReady_locks frames : forall s, locks_ok (OnPacketsReady frames s).
Proof.
  induction frames as [ | f rest IH]; intros s; [ solve_locks | ].
  cbn [OnPacketsReady]. apply locks_ok_bind; [ | intros _ s1; apply IH ].
  destruct f as [[] p]; destruct_hci s; destruct cb; solve_locks.
Qed.

Lemma step_locks o s : locks_ok (step o s).
Proof.
  destruct o as [cb env | | type v | alive | r]; cbn [step].
  - apply locks_ok_bind; [ apply initialize_locks | intros; solve_locks ].
  - apply locks_ok_bind; [ apply close_locks | intros; solve_locks ].
  - apply locks_ok_bind; [ apply send_locks | intros; solve_locks ].
  - apply serviceDied_locks.
  - apply locks_ok_bind; [ solve_locks | ].
    intros [fd | ] s1; [ | solve_locks ].
    unfold OnDataReady. apply locks_ok_bind; [ solve_locks | ].
    intros [h | ] s2; [ | solve_locks ].
    destruct r as [frames | ]; [ apply OnPacketsReady_locks | solve_locks ].
Qed.

(** X12. No call ever takes a mutex while it holds one, so the state mutex
    and the has-died mutex are never held together, in any state and through
    any sequence of calls; and a sequence of calls that returns has released
    every mutex it took.  (A call that terminates the process may do so with
    the state mutex held.) *)
Theorem mutexes_are_never_nested (ops : list Op) (s : BluetoothHci) :
  exists h,
    lock_discipline None (trace_of (run ops s)) = Some h /\
    (terminated (run ops s) = false -> h = None).
Proof.
  change (locks_ok (run ops s)). revert s.
  induction ops as [ | o rest IH]; intros s; [ solve_locks | ].
  cbn [run]. apply locks_ok_bind; [ apply step_locks | intros _ s1; apply IH ].
Qed.

(** *** Device discipline *)

Lemma device_discipline_app (t1 t2 : Trace) :
  forall o,
    device_discipline o (t1 ++ t2) =
    match device_discipline o t1 with
    | Some o' => device_discipline o' t2
    | None => None
    end.
Proof.
  induction t1 as [ | e t1 IH]; intros o; [ reflexivity | ].
  destruct e; cbn [app device_discipline]; try apply IH.
  - destruct o; [ reflexivity | apply IH ].
  - destruct o; [ apply IH | reflexivity ].
  - destruct o as [o | ]; [ | reflexivity ].
    destruct (o =? fd); [ apply IH | reflexivity ].
  - destruct o as [o | ]; [ | reflexivity ].
    destruct (o =? fd); [ apply IH | reflexivity ].
Qed.

Lemma device_quiet_bind {A B} (m : M A) (f : A -> M B) (s : BluetoothHci) :
  device_quiet (trace_of (m s)) ->
  (forall a s1, device_quiet (trace_of (f a s1))) ->
  device_quiet (trace_of (bind m f s)).
Proof.
  intros Hm Hf o. unfold bind.
  destruct (m s) as [a s1 tr1 | why tr1]; [ | apply Hm ].
  specialize (Hf a s1).
  destruct (f a s1) as [b s2 tr2 | why tr2]; cbn [trace_of] in *;
    rewrite device_discipline_app, Hm; apply Hf.
Qed.

Lemma OnPacketsReady_device_quiet frames :
  forall s, device_quiet (trace_of (OnPacketsReady frames s)).
Proof.
  induction frames as [ | f rest IH]; intros s; [ intros o; reflexivity | ].
  cbn [OnPacketsReady]. apply device_quiet_bind; [ | intros _ s1; apply IH ].
  destruct f as [[] p]; destruct_hci s; destruct cb; intros o; reflexivity.
Qed.

Ltac compute_device E :=
  repeat progress (cbv -[Z.ltb Z.eqb];
                   rewrite ?E, ?Z.eqb_refl).

Ltac solve_tracked E :=
  unfold device_tracked; compute_device E; eexists;
  (split; [ reflexivity | intros ? ? ? Hret;
            first [ discriminate Hret | injection Hret as; subst; reflexivity ] ]).

Lemma close_tracked s :
  bound_invariant s ->
  device_tracked (option_map h4_fd (mH4 s)) (close s).
Proof.
  intros (Hinv & Hb). destruct_hci s. break_invariant Hinv.
  destruct Hst as [-> | ->].
  - destruct h4 as [h | ];
      [ assert (READY = ONE_CLIENT) by (apply Hh4; discriminate);
        discriminate | ].
    solve_tracked (eq_refl 0).
  - destruct h4 as [h | ]; [ | exfalso; now apply (proj2 Hh4 eq_refl) ].
    destruct mg as [m | ];
      [ | assert (false = true) by (now apply Hdev); discriminate ].
    solve_tracked (eq_refl 0).
Qed.

Lemma initialize_tracked cb env s :
  bound_invariant s ->
  device_tracked (option_map h4_fd (mH4 s)) (initialize cb env s).
Proof.
  intros (Hinv & Hb).
  destruct cb as [c | ];
    [ | unfold device_tracked; exists (option_map h4_fd (mH4 s));
        split; [ reflexivity | ];
        intros a s' tr Hret; invert_outcome Hret; reflexivity ].
  destruct_hci s. destruct env as [ofd lk okc]. break_invariant Hinv.
  destruct Hst as [-> | ->].
  - destruct h4 as [h | ];
      [ assert (READY = ONE_CLIENT) by (apply Hh4; discriminate);
        discriminate | ].
    destruct (ofd <? 0) eqn:E;
      destruct mg as [m | ]; destruct lk, okc, hd; solve_tracked E.
  - destruct h4 as [h | ]; [ | exfalso; now apply (proj2 Hh4 eq_refl) ].
    destruct mg as [m | ];
      [ | assert (false = true) by (now apply Hdev); discriminate ].
    solve_tracked (eq_refl 0).
Qed.

Lemma send_tracked type v s :
  device_tracked (option_map h4_fd (mH4 s)) (send type v s).
Proof.
  destruct_hci s. destruct v, h4; solve_tracked (eq_refl 0).
Qed.

Lemma serviceDied_tracked alive s :
  bound_invariant s ->
  device_tracked (option_map h4_fd (mH4 s)) (serviceDied alive s).
Proof.
  intros (Hinv & Hb). destruct_hci s. break_invariant Hinv.
  destruct Hst as [-> | ->].
  - destruct h4 as [h | ];
      [ assert (READY = ONE_CLIENT) by (apply Hh4; discriminate);
        discriminate | ].
    destruct dcb, alive; solve_tracked (eq_refl 0).
  - destruct h4 as [h | ]; [ | exfalso; now apply (proj2 Hh4 eq_refl) ].
    destruct mg as [m | ];
      [ | assert (false = true) by (now apply Hdev); discriminate ].
    destruct dcb, alive; solve_tracked (eq_refl 0).
Qed.

Lemma device_tracked_then_ret {A} (m : M A) (o : option Z) (s : BluetoothHci) :
  device_tracked o (m s) ->
  device_tracked o (bind m (fun _ => ret tt) s).
Proof.
  intros (o' & Hd & Hret). unfold bind, ret.
  destruct (m s) as [a s1 tr1 | why tr1]; cbn [trace_of] in *.
  - exists o'. rewrite app_nil_r. split; [ exact Hd | ].
    intros a' s' tr H. injection H as _ <- _. eapply Hret. reflexivity.
  - exists o'. split; [ exact Hd | ]. intros a' s' tr H. discriminate H.
Qed.

Lemma step_tracked op s :
  bound_invariant s ->
  device_tracked (option_map h4_fd (mH4 s)) (step op s).
Proof.
  intros Hb. destruct op as [cb env | | type v | alive | r]; cbn [step].
  - apply device_tracked_then_ret. now apply initialize_tracked.
  - apply device_tracked_then_ret. now apply close_tracked.
  - apply device_tracked_then_ret. apply send_tracked.
  - now apply serviceDied_tracked.
  - destruct r as [frames | ].
    + exists (option_map h4_fd (mH4 s)). split.
      * apply device_quiet_bind; [ intros o; reflexivity | ].
        intros [fd | ] s1; [ | intros o; reflexivity ].
        unfold OnDataReady.
        apply device_quiet_bind; [ intros o; reflexivity | ].
        intros [h | ] s2; [ | intros o; reflexivity ].
        apply OnPacketsReady_device_quiet.
      * intros a s' tr H.
        apply bind_Ret in H as (x & s1 & tr1 & tr2 & Hg & Hk & _).
        injection Hg as <- <- <-.
        destruct (mFdWatcher s); [ | injection Hk as _ <- _; reflexivity ].
        unfold OnDataReady in Hk.
        apply bind_Ret in Hk as (h & s1 & tr1' & tr2' & Hg & Hk & _).
        injection Hg as <- <- <-.
        destruct (mH4 s) eqn:Eh; [ | discriminate ].
        apply OnPacketsReady_keeps_state in Hk. subst s'.
        now rewrite Eh.
    + destruct_hci s. destruct w, h4; solve_tracked (eq_refl 0).
Qed.

Lemma run_tracked ops :
  forall s,
    bound_invariant s ->
    device_tracked (option_map h4_fd (mH4 s)) (run ops s).
Proof.
  induction ops as [ | op rest IH]; intros s Hb.
  - exists (option_map h4_fd (mH4 s)). split; [ reflexivity | ].
    intros a s' tr H. injection H as _ <- _. reflexivity.
  - cbn [run]. destruct (step_tracked op s Hb) as (o1 & Hd1 & Hret1).
    unfold bind. destruct (step op s) as [u s1 tr1 | why tr1] eqn:E;
      cbn [trace_of] in *.
    + assert (Hb1 : bound_invariant s1) by eauto using step_keeps_bound.
      rewrite (Hret1 _ _ _ eq_refl) in Hd1.
      destruct (IH s1 Hb1) as (o2 & Hd2 & Hret2).
      destruct (run rest s1) as [u2 s2 tr2 | why tr2];
        unfold device_tracked; cbn [trace_of] in *;
        exists o2; rewrite device_discipline_app, Hd1;
        (split; [ exact Hd2 | ]); intros a s' tr H;
        [ injection H as _ <- _; eapply Hret2; reflexivity | discriminate H ].
    + exists o1. split; [ exact Hd1 | ]. intros a s' tr H. discriminate H.
Qed.

(** X13. Through any sequence of calls on a fresh bridge, whether it returns
    or ends in a fatal stop: [openHci] is only called while no descriptor is
    open and [closeHci] only while one is, so at most one descriptor is open
    at a time; the watcher is only started on the open descriptor, and every
    write of the codec goes to the descriptor that is open at that moment,
    never to one already closed.  When the sequence returns, the descriptor
    left open is exactly the one the codec is bound to, and none is open when
    there is no codec. *)
Theorem device_discipline_holds (ops : list Op) :
  exists o,
    device_discipline None (trace_of (run ops BluetoothHci_new)) = Some o /\
    (forall s' tr,
        run ops BluetoothHci_new = Ret tt s' tr ->
        o = option_map h4_fd (mH4 s')).
Proof.
  destruct (run_tracked ops BluetoothHci_new) as (o & Hd & Hret).
  - split; [ apply new_invariant | intros h Hh; discriminate Hh ].
  - exists o. split; [ exact Hd | ]. intros s' tr H. eapply Hret. exact H.
Qed.

Example device_discipline_rejects_late_write :
  device_discipline None
    [OpenHci 7; WatchFd 7; H4Send 7 ACL_DATA [Byte.x61]; CloseHci 7;
     H4Send 7 ACL_DATA [Byte.x61]] = None.
Proof. reflexivity. Qed.

(** * Properties of the USB gadget HAL *)

Ltac usb_unfold_in E :=
  unfold Usb.setCurrentUsbFunctions, Usb.setCurrentUsbFunctions_error,
    Usb.tearDownGadget, Usb.validateAndSetVidPid, Usb.setupFunctions,
    Usb.reset, Usb.getUsbSpeed, Usb.getCurrentUsbFunctions in E;
  unfold Usb.when_callback, Usb.bind, Usb.emit, Usb.modify, Usb.gets,
    Usb.ret in E.

(** The condition the evaluation of a computation is waiting for. *)
Ltac usb_head t :=
  lazymatch t with
  | match ?x with (_, _) => _ end => usb_head x
  | (if ?b then _ else _) _ => usb_head_bool b
  | if ?b then _ else _ => usb_head_bool b
  | (match ?c with Some _ => _ | None => _ end) _ => constr:(c)
  | match ?c with Some _ => _ | None => _ end => constr:(c)
  end
with usb_head_bool b :=
  lazymatch b with
  | negb ?c => usb_head_bool c
  | orb ?c _ => usb_head_bool c
  | _ => constr:(b)
  end.

Lemma usb_set_completions_app (a b : Usb.Trace) :
  Usb.set_completions (a ++ b) =
  Usb.set_completions a ++ Usb.set_completions b.
Proof.
  induction a as [ | e a IH]; [ reflexivity | ].
  destruct e; cbn; rewrite ?IH; reflexivity.
Qed.

Lemma usb_configures_app (a b : Usb.Trace) :
  Usb.configures_gadget (a ++ b) =
  Usb.configures_gadget a || Usb.configures_gadget b.
Proof.
  induction a as [ | e a IH]; [ reflexivity | ].
  destruct e; cbn; rewrite ?IH; reflexivity.
Qed.

Lemma usb_pullup_writes_app (a b : Usb.Trace) :
  Usb.pullup_writes (a ++ b) = Usb.pullup_writes a ++ Usb.pullup_writes b.
Proof.
  induction a as [ | e a IH]; [ reflexivity | ].
  destruct e as [ | | | | | | c [ | ] w | | | | | | | | | | | | | ];
    cbn; rewrite ?IH; reflexivity.
Qed.

Lemma usb_starts_monitor_app (a b : Usb.Trace) :
  Usb.starts_monitor (a ++ b) =
  Usb.starts_monitor a || Usb.starts_monitor b.
Proof. unfold Usb.starts_monitor. apply existsb_app. Qed.

Lemma last_default_irrelevant {A} (x : A) (l : list A) (d d' : A) :
  last (x :: l) d = last (x :: l) d'.
Proof.
  revert x. induction l as [ | y l IH]; intros x; [ reflexivity | ].
  change (last (y :: l) d = last (y :: l) d'). apply IH.
Qed.

(** The monitor's reports leave no trace and touch only the applied flag. *)
Lemma usb_monitor_reports (reports : list bool) :
  forall g,
    Usb.monitor_reports reports g =
      (tt,
       Usb.set_mCurrentUsbFunctionsApplied
         (last reports (Usb.mCurrentUsbFunctionsApplied g)) g,
       []).
Proof.
  induction reports as [ | b rest IH]; intros g.
  - destruct g. reflexivity.
  - cbn [Usb.monitor_reports]. unfold Usb.bind.
    unfold Usb.currentFunctionsAppliedCallback, Usb.modify at 1.
    rewrite IH. destruct g as [f a sp]. cbn.
    destruct rest as [ | b0 rest]; [ reflexivity | ].
    now rewrite (last_default_irrelevant b0 rest b a).
Qed.

(** Follow every path of the computation named by [E : out = ...]. *)
Ltac usb_paths E :=
  usb_unfold_in E;
  repeat (cbn [fst snd app negb orb andb] in E;
          rewrite ?usb_monitor_reports in E;
          match type of E with
          | _ = ?t => let b := usb_head t in destruct b eqn:?
          end;
          try discriminate);
  cbn [fst snd app negb orb andb] in E.

(** X14. [setCurrentUsbFunctions] never returns [ok]: on every path, the one
    where every step succeeded included, the status returned is the
    service-specific error -1.  The request mutex is taken first and released
    last, once each, on every path. *)
Theorem setCurrentUsbFunctions_never_returns_ok
  (GF : Usb.GadgetFunction) (kDebug : bool)
  (functions : Z) (callback : Callbacks) (timeoutMs in_transactionId : Z)
  (env : Usb.SetEnv) (g : Usb.UsbGadget) :
  (exists msg,
      Usb.result_of
        (Usb.setCurrentUsbFunctions GF kDebug functions callback timeoutMs
           in_transactionId env g) =
        Usb.fromServiceSpecificErrorWithMessage (-1) msg) /\
  Usb.lock_events
    (Usb.trace_of
       (Usb.setCurrentUsbFunctions GF kDebug functions callback timeoutMs
          in_transactionId env g)) =
    [Usb.Lock_mLockSetCurrentFunction; Usb.Unlock_mLockSetCurrentFunction] /\
  hd_error
    (Usb.trace_of
       (Usb.setCurrentUsbFunctions GF kDebug functions callback timeoutMs
          in_transactionId env g)) =
    Some Usb.Lock_mLockSetCurrentFunction /\
  last
    (Usb.trace_of
       (Usb.setCurrentUsbFunctions GF kDebug functions callback timeoutMs
          in_transactionId env g)) Usb.Lock_mLockSetCurrentFunction =
    Usb.Unlock_mLockSetCurrentFunction.
Proof.
  remember (Usb.setCurrentUsbFunctions GF kDebug functions callback timeoutMs
              in_transactionId env g) as out eqn:E.
  usb_paths E; subst out; (split; [ eexists; reflexivity | repeat split ]).
Qed.

Lemma usb_Status_eqb_eq (a b : Usb.Status) :
  Usb.Status_eqb a b = true -> a = b.
Proof. destruct a, b; (reflexivity || discriminate). Qed.

(** X15. Every [setCurrentUsbFunctions] with a callback calls
    [setCurrentUsbFunctionsCb] on it exactly once, on every path, with the
    functions and the transaction id of the request; without a callback
    nothing is called.  The status handed over is SUCCESS only if the gadget
    was torn down successfully and then either no function was requested, or
    the pull-up file was written, or the monitor reported the pull-up before
    the timeout. *)
Theorem setCurrentUsbFunctions_completes_once
  (GF : Usb.GadgetFunction) (kDebug : bool)
  (functions : Z) (callback : Callbacks) (timeoutMs in_transactionId : Z)
  (env : Usb.SetEnv) (g : Usb.UsbGadget) :
  match callback with
  | None =>
      Usb.set_completions
        (Usb.trace_of
           (Usb.setCurrentUsbFunctions GF kDebug functions None timeoutMs
              in_transactionId env g)) = []
  | Some c =>
      exists st,
        Usb.set_completions
          (Usb.trace_of
             (Usb.setCurrentUsbFunctions GF kDebug functions (Some c)
                timeoutMs in_transactionId env g)) =
          [(c, functions, st, in_transactionId)] /\
        (st = Usb.SUCCESS ->
         Usb.resetGadget_result env = Usb.SUCCESS /\
         (functions = Usb.NONE GF \/
          Usb.pullup_writes
            (Usb.trace_of
               (Usb.setCurrentUsbFunctions GF kDebug functions (Some c)
                  timeoutMs in_transactionId env g)) =
            [(Usb.kGadgetName, true)] \/
          In (Usb.monitorFfs_waitForPullUp (Usb.to_uint64 timeoutMs) true)
            (Usb.trace_of
               (Usb.setCurrentUsbFunctions GF kDebug functions (Some c)
                  timeoutMs in_transactionId env g))))
  end.
Proof.
  destruct callback as [c | ].
  - remember (Usb.setCurrentUsbFunctions GF kDebug functions (Some c)
                timeoutMs in_transactionId env g) as out eqn:E.
    usb_paths E; subst out; eexists; (split; [ reflexivity | ]);
      intros Hst; try discriminate Hst;
      try (rewrite Hst in *; discriminate);
      (split; [ now apply usb_Status_eqb_eq | ]);
      first [ left; now apply Z.eqb_eq
            | right; left; reflexivity
            | right; right;
              destruct (Usb.waitForPullUp_result env);
              [ cbn; tauto | discriminate Hst ] ].
  - remember (Usb.setCurrentUsbFunctions GF kDebug functions None
                timeoutMs in_transactionId env g) as out eqn:E.
    usb_paths E; subst out; reflexivity.
Qed.





(** X18. One [setCurrentUsbFunctions] either writes the pull-up file itself
    or starts the monitor, never both, and it writes the pull-up file at most
    once.  A request that includes ADB never writes the pull-up file: raising
    the gadget is left to the monitor. *)
Theorem setCurrentUsbFunctions_pullup_or_monitor
  (GF : Usb.GadgetFunction) (kDebug : bool)
  (functions : Z) (callback : Callbacks) (timeoutMs in_transactionId : Z)
  (env : Usb.SetEnv) (g : Usb.UsbGadget) :
  (Usb.starts_monitor
     (Usb.trace_of
        (Usb.setCurrentUsbFunctions GF kDebug functions callback timeoutMs
           in_transactionId env g)) = true ->
   Usb.pullup_writes
     (Usb.trace_of
        (Usb.setCurrentUsbFunctions GF kDebug functions callback timeoutMs
           in_transactionId env g)) = []) /\
  (List.length
     (Usb.pullup_writes
        (Usb.trace_of
           (Usb.setCurrentUsbFunctions GF kDebug functions callback timeoutMs
              in_transactionId env g))) <= 1)%nat /\
  (Z.land functions (Usb.ADB GF) <> 0 ->
   Usb.pullup_writes
     (Usb.trace_of
        (Usb.setCurrentUsbFunctions GF kDebug functions callback timeoutMs
           in_transactionId env g)) = []).
Proof.
  remember (Usb.setCurrentUsbFunctions GF kDebug functions callback timeoutMs
              in_transactionId env g) as out eqn:E.
  usb_paths E; subst out;
    (split; [ cbn; intros Hm; first [ reflexivity | discriminate Hm ] | ]);
    (split; [ cbn; lia | ]);
    cbn; intros Hadb; try reflexivity;
    exfalso; apply Hadb; now apply Z.eqb_eq.
Qed.

Lemma setCurrentUsbFunctions_pullup_or_monitor_witness :
  Usb.starts_monitor
    (Usb.trace_of
       (Usb.setCurrentUsbFunctions Usb.sample_functions false 5 (Some client)
          1000 7 Usb.sample_env Usb.sample_gadget)) = true /\
  Usb.pullup_writes
    (Usb.trace_of
       (Usb.setCurrentUsbFunctions Usb.sample_functions false 5 (Some client)
          1000 7 Usb.sample_env Usb.sample_gadget)) = [].
Proof.
  split; [ reflexivity | ].
  apply (proj2 (proj2 (setCurrentUsbFunctions_pullup_or_monitor
                         Usb.sample_functions false 5 (Some client) 1000 7
                         Usb.sample_env Usb.sample_gadget))).
  discriminate.
Defined.

(** X19. [reset] pulls the gadget down and, only if that write succeeded,
    waits and pulls it up again.  It returns [ok] exactly when both writes
    succeeded and the service-specific error -1 otherwise; a callback, when
    there is one, is called exactly once, with SUCCESS in the first case and
    ERROR in the second.  No member of the gadget changes. *)
Theorem reset_reports_both_writes
  (callback : Callbacks) (in_transactionId : Z) (env : Usb.ResetEnv)
  (g : Usb.UsbGadget) :
  Usb.gadget_of (Usb.reset callback in_transactionId env g) = g /\
  Usb.result_of (Usb.reset callback in_transactionId env g) =
    (if Usb.pulldown_written env && Usb.pullup_written env then Usb.ok
     else Usb.fromServiceSpecificErrorWithMessage (-1)
            "Error while calling resetCb") /\
  Usb.reset_completions
    (Usb.trace_of (Usb.reset callback in_transactionId env g)) =
    match callback with
    | Some c =>
        [(c,
          if Usb.pulldown_written env && Usb.pullup_written env
          then Usb.SUCCESS else Usb.ERROR,
          in_transactionId)]
    | None => []
    end /\
  Usb.pullup_writes
    (Usb.trace_of (Usb.reset callback in_transactionId env g)) =
    ("none", Usb.pulldown_written env) ::
    (if Usb.pulldown_written env
     then [(Usb.kGadgetName, Usb.pullup_written env)] else []).
Proof.
  destruct env as [down up]. destruct callback, down, up; repeat split.
Qed.

Section UsbSpeed.
Variable Trim : string -> string.

(** X20. [getUsbSpeed] always returns [ok], with or without a callback and
    whether or not the callback accepts the call.  It overwrites [mUsbSpeed]
    on every call, with UNKNOWN when the speed file cannot be read, and hands
    the callback the value it has just stored; the other members are left
    alone.  Only the five names low-speed, full-speed, high-speed,
    super-speed and super-speed-plus, compared exactly after trimming, give a
    speed other than UNKNOWN, and each gives a different one. *)
Theorem getUsbSpeed_always_ok
  (callback : Callbacks) (in_transactionId : Z) (file : option string)
  (delivered : bool) (g : Usb.UsbGadget) :
  Usb.result_of
    (Usb.getUsbSpeed Trim callback in_transactionId file delivered g) =
    Usb.ok /\
  Usb.gadget_of
    (Usb.getUsbSpeed Trim callback in_transactionId file delivered g) =
    Usb.set_mUsbSpeed
      match file with
      | Some content => Usb.speed_of (Trim content)
      | None => Usb.UNKNOWN
      end g /\
  (forall c,
      callback = Some c ->
      In (Usb.getUsbSpeedCb c
            match file with
            | Some content => Usb.speed_of (Trim content)
            | None => Usb.UNKNOWN
            end in_transactionId)
        (Usb.trace_of
           (Usb.getUsbSpeed Trim callback in_transactionId file delivered g)))
  /\
  (forall name,
      Usb.speed_of name <> Usb.UNKNOWN ->
      In name ["low-speed"; "full-speed"; "high-speed"; "super-speed";
               "super-speed-plus"]) /\
  map Usb.speed_of
    ["low-speed"; "full-speed"; "high-speed"; "super-speed";
     "super-speed-plus"] =
    [Usb.LOWSPEED; Usb.FULLSPEED; Usb.HIGHSPEED; Usb.SUPERSPEED;
     Usb.SUPERSPEED_10Gb].
Proof.
  split; [ | split; [ | split; [ | split ] ] ].
  - destruct file, callback, delivered; reflexivity.
  - destruct g. destruct file, callback, delivered; reflexivity.
  - intros c ->. destruct file, delivered; cbn; tauto.
  - intros name. unfold Usb.speed_of.
    repeat match goal with
           | |- context [String.eqb name ?lit] =>
               destruct (String.eqb_spec name lit) as [-> | _]
           end; cbn; intros H; try tauto; contradiction.
  - reflexivity.
Qed.
End UsbSpeed.

(** *** Product ids *)

Lemma usb_switch_on_In (functions : Z) (cases : list (Z * string)) (pid : string) :
  Usb.switch_on functions cases = Some pid ->
  exists label, In (label, pid) cases /\ Usb.to_uint64 label = functions.
Proof.
  induction cases as [ | [label p] rest IH]; [ discriminate | ].
  cbn [Usb.switch_on]. destruct (Z.eqb_spec (Usb.to_uint64 label) functions).
  - intros H. injection H as ->. exists label. split; [ now left | assumption ].
  - intros H. destruct (IH H) as (l & Hin & Hl). exists l.
    split; [ now right | assumption ].
Qed.

Lemma usb_unique_by_snd {A B} (l : list (A * B)) (a a' : A) (b : B) :
  NoDup (map snd l) -> In (a, b) l -> In (a', b) l -> a = a'.
Proof.
  induction l as [ | [x y] l IH]; intros Hnd H1 H2; [ destruct H1 | ].
  cbn [map snd] in Hnd. inversion Hnd as [ | ? ? Hnotin Hnd']; subst.
  destruct H1 as [H1 | H1], H2 as [H2 | H2].
  - congruence.
  - injection H1 as -> ->. exfalso. apply Hnotin.
    change b with (snd (a', b)). now apply in_map.
  - injection H2 as -> ->. exfalso. apply Hnotin.
    change b with (snd (a, b)). now apply in_map.
  - now apply IH.
Qed.

Lemma usb_product_ids_NoDup (GF : Usb.GadgetFunction) :
  NoDup (map snd (Usb.vid_pid_cases GF)).
Proof.
  cbn [Usb.vid_pid_cases map snd].
  repeat (constructor; [ cbn [In]; intuition discriminate | ]).
  constructor.
Qed.

(** X21. No two supported combinations of functions share a product id:
    whatever the values of the [GadgetFunction] constants, if the switch of
    [validateAndSetVidPid] selects the same product id for two values, the
    two values are equal. *)
Theorem product_ids_are_distinct
  (GF : Usb.GadgetFunction) (f1 f2 : Z) (pid : string) :
  Usb.switch_on f1 (Usb.vid_pid_cases GF) = Some pid ->
  Usb.switch_on f2 (Usb.vid_pid_cases GF) = Some pid ->
  f1 = f2.
Proof.
  intros H1 H2.
  apply usb_switch_on_In in H1 as (l1 & Hin1 & <-).
  apply usb_switch_on_In in H2 as (l2 & Hin2 & <-).
  now rewrite (usb_unique_by_snd _ l1 l2 pid (usb_product_ids_NoDup GF)
                 Hin1 Hin2).
Qed.

Lemma product_ids_are_distinct_witness : 5 = 5.
Proof.
  apply (product_ids_are_distinct Usb.sample_functions 5 5 "0x4ee2");
    reflexivity.
Defined.

Example monitor_report_without_callback :
  Usb.mCurrentUsbFunctionsApplied
    (Usb.gadget_of
       (Usb.setCurrentUsbFunctions Usb.sample_functions false 1 None 1000 7
          Usb.sample_env Usb.sample_gadget)) = true /\
  Usb.set_completions
    (Usb.trace_of
       (Usb.setCurrentUsbFunctions Usb.sample_functions false 1 None 1000 7
          Usb.sample_env Usb.sample_gadget)) = [].
Proof. split; reflexivity. Qed.
